(** * Document controller and API templates (ERPNext flavour)

    Shallow embedding of
      references/erpnext-master/26_TEMPLATES/doctype-controller.py
      references/erpnext-master/26_TEMPLATES/api-endpoint.py

    Conventions.
    - Numbers. The code computes in Python floats (binary64). The
      calculation methods and the ledger arguments are embedded over
      primitive binary64 numbers in module [Binary64]: what is said of the
      values they compute is said there. The rest of the development
      (checks, their order, frames, transitions, endpoints) reads numbers as
      exact rationals ([Q], compared with [==]); it uses the order of finite
      numbers and which fields are written, not the rounding.
    - A field that Python may hold as [None] is an [option].
    - [frappe.utils.flt] is the framework's coercion to a number: the
      number itself, and 0 for [None].
    - [_( )] (translation) is the identity on messages.
    - [frappe.throw(msg)] raises the framework's default exception class,
      [ValidationError]. *)

From Stdlib Require Import List String QArith Bool Lia PrimFloat.
From stdpp Require Import base strings pretty gmap.
Import ListNotations.

Local Open Scope Q_scope.

(** ** Numbers *)

Definition flt (x : option Q) : Q :=
  match x with
  | Some q => q
  | None => 0
  end.

(** Python truthiness of a numeric field: [None] and 0 are false. *)
Definition truthy_num (x : option Q) : bool :=
  match x with
  | Some q => negb (Qeq_bool q 0)
  | None => false
  end.

(** Python truthiness of a text field: [None] and the empty string are false. *)
Definition truthy_str (x : option string) : bool :=
  match x with
  | Some s => negb (String.eqb s EmptyString)
  | None => false
  end.

(** The sum of a list of numbers. *)
Definition Qsum (l : list Q) : Q := fold_right Qplus 0 l.

(** ** Child rows and the document *)

Module Item.
Record t := mk {
  item_code : string;
  qty : option Q;
  rate : option Q;
  amount : option Q;
  warehouse : option string;
  valuation_rate : option Q
}.

Definition set_amount (it : t) (a : Q) : t :=
  mk (item_code it) (qty it) (rate it) (Some a) (warehouse it)
     (valuation_rate it).
End Item.

Module Tax.
Record t := mk {
  charge_type : string;
  rate : option Q;
  tax_amount : option Q;
  account_head : string
}.

Definition set_tax_amount (tx : t) (a : Q) : t :=
  mk (charge_type tx) (rate tx) (Some a) (account_head tx).
End Tax.

(** Dates are day numbers; only their order is used. *)
Definition date := Z.

Record document := mkDoc {
  name : string;
  doctype : string;
  customer : option string;
  from_date : option date;
  to_date : option date;
  due_date : option date;
  posting_date : option date;
  items : list Item.t;
  taxes : list Tax.t;
  total_qty : option Q;
  total_amount : option Q;
  total_tax : option Q;
  grand_total : option Q;
  debit_account : option string;
  credit_account : option string
}.

Definition set_items (d : document) (v : list Item.t) : document :=
  mkDoc (name d) (doctype d) (customer d) (from_date d) (to_date d)
        (due_date d) (posting_date d) v (taxes d) (total_qty d)
        (total_amount d) (total_tax d) (grand_total d) (debit_account d)
        (credit_account d).

Definition set_taxes (d : document) (v : list Tax.t) : document :=
  mkDoc (name d) (doctype d) (customer d) (from_date d) (to_date d)
        (due_date d) (posting_date d) (items d) v (total_qty d)
        (total_amount d) (total_tax d) (grand_total d) (debit_account d)
        (credit_account d).

Definition set_total_qty (d : document) (v : option Q) : document :=
  mkDoc (name d) (doctype d) (customer d) (from_date d) (to_date d)
        (due_date d) (posting_date d) (items d) (taxes d) v
        (total_amount d) (total_tax d) (grand_total d) (debit_account d)
        (credit_account d).

Definition set_total_amount (d : document) (v : option Q) : document :=
  mkDoc (name d) (doctype d) (customer d) (from_date d) (to_date d)
        (due_date d) (posting_date d) (items d) (taxes d) (total_qty d)
        v (total_tax d) (grand_total d) (debit_account d)
        (credit_account d).

Definition set_total_tax (d : document) (v : option Q) : document :=
  mkDoc (name d) (doctype d) (customer d) (from_date d) (to_date d)
        (due_date d) (posting_date d) (items d) (taxes d) (total_qty d)
        (total_amount d) v (grand_total d) (debit_account d)
        (credit_account d).

Definition set_grand_total (d : document) (v : option Q) : document :=
  mkDoc (name d) (doctype d) (customer d) (from_date d) (to_date d)
        (due_date d) (posting_date d) (items d) (taxes d) (total_qty d)
        (total_amount d) (total_tax d) v (debit_account d)
        (credit_account d).

(** ** Calculation methods *)

(** Python's [a + b] on two document fields; both must hold numbers
    ([None + x] is a [TypeError], rendered here as [None]). *)
Definition num_add (a b : option Q) : option Q :=
  match a, b with
  | Some x, Some y => Some (x + y)
  | _, _ => None
  end.

(** One turn of the loop of [calculate_taxes]. *)
Definition tax_step (total_amount : option Q) (tx : Tax.t) : Tax.t :=
  if String.eqb (Tax.charge_type tx) "On Net Total" then
    Tax.set_tax_amount tx (flt total_amount * flt (Tax.rate tx) / 100)
  else if String.eqb (Tax.charge_type tx) "Actual" then
    tx
  else
    tx.

(** The loop of [calculate_taxes]: rows are updated in place, in order,
    and [acc] is the running [self.total_tax]. *)
Fixpoint taxes_loop (total_amount : option Q) (txs : list Tax.t) (acc : Q)
  : list Tax.t * Q :=
  match txs with
  | [] => ([], acc)
  | tx :: rest =>
      let tx' := tax_step total_amount tx in
      let '(rest', acc') :=
        taxes_loop total_amount rest (acc + flt (Tax.tax_amount tx')) in
      (tx' :: rest', acc')
  end.

Definition calculate_taxes (d : document) : document :=
  let '(txs, acc) := taxes_loop (total_amount d) (taxes d) 0 in
  set_total_tax (set_taxes d txs) (Some acc).

(** The loop of [calculate_totals]; [tq] and [ta] are the running
    [self.total_qty] and [self.total_amount]. *)
Fixpoint items_loop (its : list Item.t) (tq ta : Q)
  : list Item.t * Q * Q :=
  match its with
  | [] => ([], tq, ta)
  | it :: rest =>
      let a := flt (Item.qty it) * flt (Item.rate it) in
      let '(rest', tq', ta') :=
        items_loop rest (tq + flt (Item.qty it)) (ta + a) in
      (Item.set_amount it a :: rest', tq', ta')
  end.

Definition calculate_totals (d : document) : document :=
  let '(its, tq, ta) := items_loop (items d) 0 0 in
  let d1 := set_total_amount (set_total_qty (set_items d its) (Some tq))
                             (Some ta) in
  let d2 := calculate_taxes d1 in
  set_grand_total d2 (num_add (total_amount d2) (total_tax d2)).

(** ** Exceptions and the effect monad *)

(** The three classes of failure a transition can meet. *)
Inductive exc_class := ValidationError | ExternalDependencyError | PermissionError.

Record exc := mkExc { exc_kind : exc_class; exc_msg : string }.

Inductive result (A : Type) :=
| Ok (a : A)
| Raise (e : exc).
Arguments Ok {A} a.
Arguments Raise {A} e.

(** The dict literals handed to [get_gl_dict] in [make_gl_entries]. *)
Record gl_dict := mkGL {
  gl_account : option string;
  gl_party_type : option string;
  gl_party : option string;
  gl_debit : option Q;
  gl_credit : option Q;
  gl_against : option string
}.

(** One call of the ledger collaborator
    ([erpnext.accounts.general_ledger.make_gl_entries(gl_map, cancel)]),
    stamped with the name of the document that made it. *)
Record ledger_call := mkCall {
  lc_voucher : string;
  lc_entries : list gl_dict;
  lc_cancel : bool
}.

(** The dicts built by [update_stock_ledger]. *)
Record sl_dict := mkSL {
  sl_item_code : string;
  sl_warehouse : option string;
  sl_actual_qty : Q;
  sl_voucher_no : string;
  sl_voucher_type : string;
  sl_posting_date : option date;
  sl_valuation_rate : option Q
}.

(** What a controller method can read and write: the document (fields and
    child rows) and the record of what was handed to the ledger. *)
Record world := mkWorld {
  doc : document;
  ledger : list ledger_call
}.

Definition set_doc (w : world) (d : document) : world := mkWorld d (ledger w).

(** State and exceptions; the state reached when an exception is raised is
    kept (nothing is rolled back at this level). *)
Definition M (A : Type) : Type := world -> result A * world.

Definition ret {A} (a : A) : M A := fun w => (Ok a, w).

Definition bind {A B} (m : M A) (k : A -> M B) : M B :=
  fun w =>
    match m w with
    | (Ok a, w') => k a w'
    | (Raise e, w') => (Raise e, w')
    end.

Notation "'do' x <- m ; k" := (bind m (fun x => k))
  (at level 10, x name, m at level 100, k at level 200).
Notation "m >> k" := (bind m (fun _ => k))
  (at level 100, k at level 200, right associativity).

Definition raise {A} (e : exc) : M A := fun w => (Raise e, w).

(** [frappe.throw(msg)], with the default exception class. *)
Definition throw {A} (msg : string) : M A := raise (mkExc ValidationError msg).

(** A collaborator's answer brought into the monad. *)
Definition lift {A} (r : result A) : M A := fun w => (r, w).

Definition get_doc_self : M document := fun w => (Ok (doc w), w).
Definition modify_doc (f : document -> document) : M unit :=
  fun w => (Ok tt, set_doc w (f (doc w))).

Definition Qltb (a b : Q) : bool := negb (Qle_bool b a).

(** ** Collaborators owned by the host framework *)

Record env := mkEnv {
  (** [erpnext.stock.utils.get_stock_balance(item_code, warehouse)] *)
  get_stock_balance : string -> string -> result Q;
  (** [frappe.db.exists("Custom DocType", {"customer": c, "docstatus": 1})] *)
  exists_submitted_for : option string -> bool;
  (** the date [frappe.utils.getdate] returns for an empty argument *)
  today : date;
  (** how [str.format] prints a number *)
  str_num : Q -> string;
  (** the ledger collaborator refusing a call ([None]: accepted) *)
  ledger_refuses : list gl_dict -> bool -> option exc
}.

Definition getdate (e : env) (d : option date) : date :=
  match d with
  | Some x => x
  | None => today e
  end.

(** Methods the controller calls on [self] that the template does not
    define (on the class as written, with nothing supplying them, each of
    these calls is an [AttributeError]). They are parameters of the
    development: whatever a base class or the user of the template supplies;
    each may raise and change the document. [get_gl_dict] is taken as a
    function that builds a dict from the document and the arguments. *)
Record helpers := mkHelpers {
  set_defaults : M unit;
  update_status : M unit;
  update_related_documents : M unit;
  send_notification : M unit;
  check_permissions : M unit;
  validate_for_submit : M unit;
  create_related_documents : M unit;
  check_if_cancel_allowed : M unit;
  cancel_stock_ledger : M unit;
  cancel_related_documents : M unit;
  check_if_delete_allowed : M unit;
  cleanup_references : M unit;
  check_if_rename_allowed : M unit;
  update_references : string -> string -> M unit;
  get_gl_dict : document -> gl_dict -> gl_dict;
  get_gl_entries : M (list gl_dict)
}.

(** ** The controller, [class CustomDocType(Document)] *)

Section Controller.

Variable E : env.
Variable H : helpers.

Local Open Scope string_scope.

(** *** Validation methods *)

Definition validate_required_fields : M unit :=
  do d <- get_doc_self;
  (if negb (truthy_str (customer d))
   then throw "Customer is required" else ret tt) >>
  (if match items d with [] => true | _ => false end
   then throw "At least one item is required" else ret tt).

Definition validate_dates : M unit :=
  do d <- get_doc_self;
  (match from_date d, to_date d with
   | Some _, Some _ =>
       if (getdate E (to_date d) <? getdate E (from_date d))%Z
       then throw "From Date cannot be after To Date" else ret tt
   | _, _ => ret tt
   end) >>
  (match due_date d with
   | Some _ =>
       if (getdate E (due_date d) <? getdate E (posting_date d))%Z
       then throw "Due Date cannot be before Posting Date" else ret tt
   | None => ret tt
   end).

Fixpoint validate_quantities_loop (its : list Item.t) : M unit :=
  match its with
  | [] => ret tt
  | it :: rest =>
      (if Qle_bool (flt (Item.qty it)) 0
       then throw ("Quantity must be greater than 0 for item "
                   ++ Item.item_code it)
       else ret tt) >>
      (if Qltb (flt (Item.rate it)) 0
       then throw ("Rate cannot be negative for item " ++ Item.item_code it)
       else ret tt) >>
      validate_quantities_loop rest
  end.

Definition validate_quantities : M unit :=
  do d <- get_doc_self;
  validate_quantities_loop (items d).

Definition insufficient_stock_msg (code : string) (available required : Q)
  : string :=
  "Insufficient stock for item " ++ code ++ ". Available: "
    ++ str_num E available ++ ", Required: " ++ str_num E required.

Fixpoint validate_against_stock_loop (its : list Item.t) : M unit :=
  match its with
  | [] => ret tt
  | it :: rest =>
      (match Item.warehouse it, Item.qty it with
       | Some wh, Some q =>
           if negb (String.eqb wh "") && negb (Qeq_bool q 0) then
             do available_qty <-
               lift (get_stock_balance E (Item.item_code it) wh);
             if Qltb available_qty q
             then throw (insufficient_stock_msg (Item.item_code it)
                                                available_qty q)
             else ret tt
           else ret tt
       | _, _ => ret tt
       end) >>
      validate_against_stock_loop rest
  end.

Definition validate_against_stock : M unit :=
  do d <- get_doc_self;
  validate_against_stock_loop (items d).

Definition validate_unique_constraints : M unit :=
  do d <- get_doc_self;
  if exists_submitted_for E (customer d)
  then throw "Record already exists for this customer" else ret tt.

(** *** Ledger methods *)

(** The ledger collaborator: it either refuses the call with its own
    exception or takes it. *)
Definition post_gl_entries (entries : list gl_dict) (cancel : bool) : M unit :=
  fun w =>
    match ledger_refuses E entries cancel with
    | Some e => (Raise e, w)
    | None =>
        (Ok tt,
         mkWorld (doc w)
                 (ledger w ++ [mkCall (name (doc w)) entries cancel]))
    end.

(** The arguments of the three kinds of [get_gl_dict] call. *)
Definition debit_entry (d : document) : gl_dict :=
  mkGL (debit_account d) (Some "Customer") (customer d)
       (grand_total d) (Some 0%Q) (credit_account d).

Definition credit_entry (d : document) : gl_dict :=
  mkGL (credit_account d) None None (Some 0%Q) (total_amount d) (customer d).

Definition tax_entry (d : document) (tx : Tax.t) : gl_dict :=
  mkGL (Some (Tax.account_head tx)) None None (Some 0%Q) (Tax.tax_amount tx)
       (customer d).

Definition gl_args (d : document) : list gl_dict :=
  [debit_entry d; credit_entry d] ++ map (tax_entry d) (taxes d).

Definition make_gl_entries : M unit :=
  do d <- get_doc_self;
  post_gl_entries (map (get_gl_dict H d) (gl_args d)) false.

Definition cancel_gl_entries : M unit :=
  do entries <- get_gl_entries H;
  post_gl_entries entries true.

Definition sl_entries (d : document) : list sl_dict :=
  map (fun it =>
         mkSL (Item.item_code it) (Item.warehouse it)
              (- flt (Item.qty it))%Q (name d) (doctype d) (posting_date d)
              (Item.valuation_rate it))
      (items d).

(** The method builds the local list and ends there: the imported
    [make_sl_entries] is not called. *)
Definition update_stock_ledger : M unit :=
  do d <- get_doc_self;
  let sl_entries := sl_entries d in
  ret tt.

(** *** Lifecycle hooks *)

Definition before_insert : M unit :=
  set_defaults H >> validate_unique_constraints.

Definition validate : M unit :=
  validate_required_fields >>
  validate_dates >>
  validate_quantities >>
  modify_doc calculate_totals >>
  validate_against_stock.

Definition before_save : M unit := update_status H.

Definition on_update : M unit := update_related_documents H.

Definition after_insert : M unit := send_notification H.

Definition before_submit : M unit :=
  check_permissions H >> validate_for_submit H.

Definition on_submit : M unit :=
  make_gl_entries >>
  update_stock_ledger >>
  create_related_documents H >>
  update_status H.

Definition before_cancel : M unit := check_if_cancel_allowed H.

Definition on_cancel : M unit :=
  cancel_gl_entries >>
  cancel_stock_ledger H >>
  cancel_related_documents H.

Definition on_trash : M unit := check_if_delete_allowed H.

Definition after_delete : M unit := cleanup_references H.

Definition before_rename (old_name new_name : string) (merge : bool)
  : M unit := check_if_rename_allowed H.

Definition after_rename (old_name new_name : string) (merge : bool)
  : M unit := update_references H old_name new_name.

End Controller.

(** ** The lifecycle sequencer *)

Inductive docstatus := Draft | Submitted | Cancelled.

Inductive transition := Insert | Save | Submit | Cancel | Delete | Rename.

Inductive hook_point :=
| hp_before_insert | hp_validate | hp_before_save | hp_on_update
| hp_after_insert | hp_before_submit | hp_validate_for_submit | hp_on_submit
| hp_before_cancel | hp_on_cancel | hp_on_trash | hp_after_delete
| hp_before_rename | hp_after_rename.

#[global] Instance hook_point_eq_dec : EqDecision hook_point.
Proof. solve_decision. Defined.

(** A step of a transition: a hook point, or the persistence step at which
    the status changes. *)
Inductive step :=
| Hook (h : hook_point)
| Persist.

(** Modelled from the spec: the host framework's document engine is not part
    of the templates; this is the table of canonical hook-point orders. *)
Definition canonical_order (t : transition) : list step :=
  match t with
  | Insert => [Hook hp_before_insert; Hook hp_validate; Hook hp_before_save;
               Persist; Hook hp_on_update; Hook hp_after_insert]
  | Save => [Hook hp_validate; Hook hp_before_save; Persist; Hook hp_on_update]
  | Submit => [Hook hp_before_submit; Hook hp_validate_for_submit; Persist;
               Hook hp_on_submit]
  | Cancel => [Hook hp_before_cancel; Persist; Hook hp_on_cancel]
  | Delete => [Hook hp_on_trash; Persist; Hook hp_after_delete]
  | Rename => [Hook hp_before_rename; Persist; Hook hp_after_rename]
  end.

(** The order a transition follows in this development. For every
    transition but submit it is the table's. For submit the table is
    preceded by [validate]: that step is not in the specification's table;
    it is taken from the docstring of the controller's [validate], "called
    on save and before submit". What is proved of a transition through its
    sequence says which steps it relies on. *)
Definition hook_sequence (t : transition) : list step :=
  match t with
  | Submit => Hook hp_validate :: canonical_order Submit
  | _ => canonical_order t
  end.

(** Modelled from the spec: the status a successful transition ends in. *)
Definition terminal_status (t : transition) (current : docstatus) : docstatus :=
  match t with
  | Insert => Draft
  | Submit => Submitted
  | Cancel => Cancelled
  | Save | Delete | Rename => current
  end.

(** A registered callback reads the current status and runs on the
    document. *)
Definition callback := docstatus -> M unit.

Record seq_state := mkSeq {
  status : docstatus;
  invoked : list hook_point;
  wld : world
}.

(** Modelled from the spec: the callbacks registered for hook point [h] run
    in registration order; the first failure stops the run. *)
Fixpoint run_callbacks (h : hook_point) (cbs : list (hook_point * callback))
  (st : seq_state) : result unit * seq_state :=
  match cbs with
  | [] => (Ok tt, st)
  | (h', cb) :: rest =>
      if decide (h = h') then
        match cb (status st) (wld st) with
        | (Ok _, w') =>
            run_callbacks h rest (mkSeq (status st) (invoked st ++ [h]) w')
        | (Raise e, w') =>
            (Raise e, mkSeq (status st) (invoked st ++ [h]) w')
        end
      else run_callbacks h rest st
  end.

(** Modelled from the spec: hook points in order; at the persistence step the
    status becomes [target], so the hooks after it see the new status. *)
Fixpoint run_steps (target : docstatus) (cbs : list (hook_point * callback))
  (steps : list step) (st : seq_state) : result unit * seq_state :=
  match steps with
  | [] => (Ok tt, st)
  | Hook h :: rest =>
      match run_callbacks h cbs st with
      | (Ok _, st') => run_steps target cbs rest st'
      | (Raise e, st') => (Raise e, st')
      end
  | Persist :: rest =>
      run_steps target cbs rest (mkSeq target (invoked st) (wld st))
  end.

(** Modelled from the spec: [run_transition(document, transition, callbacks)].
    On failure the status is the one the transition started from; what the
    callbacks did to the document before the failure stays. *)
Definition run_transition (t : transition)
  (cbs : list (hook_point * callback)) (st : seq_state)
  : result unit * seq_state :=
  match run_steps (terminal_status t (status st)) cbs (hook_sequence t) st with
  | (Ok _, st') => (Ok tt, st')
  | (Raise e, st') => (Raise e, mkSeq (status st) (invoked st') (wld st'))
  end.

(** The hook methods of the template, registered under their names. *)
Definition controller_callbacks (E : env) (H : helpers)
  (old_name new_name : string) (merge : bool)
  : list (hook_point * callback) :=
  [(hp_before_insert, fun _ => before_insert E H);
   (hp_validate, fun _ => validate E);
   (hp_before_save, fun _ => before_save H);
   (hp_on_update, fun _ => on_update H);
   (hp_after_insert, fun _ => after_insert H);
   (hp_before_submit, fun _ => before_submit H);
   (hp_on_submit, fun _ => on_submit E H);
   (hp_before_cancel, fun _ => before_cancel H);
   (hp_on_cancel, fun _ => on_cancel E H);
   (hp_on_trash, fun _ => on_trash H);
   (hp_after_delete, fun _ => after_delete H);
   (hp_before_rename, fun _ => before_rename H old_name new_name merge);
   (hp_after_rename, fun _ => after_rename H old_name new_name merge)].

(** ** The API endpoint [get_customer_info] *)

Module Customer.
Record t := mk {
  name : string;
  customer_name : option string;
  customer_type : option string;
  credit_limit : option Q;
  territory : option string;
  customer_group : option string
}.
End Customer.

(** JSON values of the answers. *)
Inductive json :=
| JNull
| JStr (s : string)
| JNum (q : Q).

Definition json_str (x : option string) : json :=
  match x with
  | Some s => JStr s
  | None => JNull
  end.

Definition json_num (x : option Q) : json :=
  match x with
  | Some q => JNum q
  | None => JNull
  end.

(** The persistence collaborator's table of customers, by identifier. *)
Definition db_exists (db : gmap string Customer.t) (id : string) : bool :=
  bool_decide (is_Some (db !! id)).

Definition db_get_doc (db : gmap string Customer.t) (id : string)
  : result Customer.t :=
  match db !! id with
  | Some c => Ok c
  | None =>
      Raise (mkExc ExternalDependencyError
                   ("Customer " ++ id ++ " not found")%string)
  end.

Definition get_customer_info (db : gmap string Customer.t) (customer : string)
  : result (list (string * json)) :=
  if negb (db_exists db customer) then
    Raise (mkExc ValidationError
                 ("Customer " ++ customer ++ " not found")%string)
  else
    match db_get_doc db customer with
    | Raise e => Raise e
    | Ok customer_doc =>
        Ok [("name"%string, JStr (Customer.name customer_doc));
            ("customer_name"%string,
             json_str (Customer.customer_name customer_doc));
            ("customer_type"%string,
             json_str (Customer.customer_type customer_doc));
            ("credit_limit"%string,
             json_num (Customer.credit_limit customer_doc));
            ("territory"%string, json_str (Customer.territory customer_doc));
            ("customer_group"%string,
             json_str (Customer.customer_group customer_doc))]
    end.

(** ** The calculation methods in the arithmetic of the code *)

(** [frappe.utils.flt] answers with a Python float, and the calculation
    methods add, multiply and divide such floats: binary64, every operation
    rounded, overflow to infinity, NaN. This module embeds the calculation
    and ledger-argument code over primitive binary64 numbers; it is the
    model for what depends on the value the arithmetic gives. *)
Module Binary64.

Local Open Scope float_scope.
#[local] Set Warnings "-inexact-float".

Definition flt (x : option float) : float :=
  match x with
  | Some f => f
  | None => 0
  end.

Module Item.
Record t := mk {
  item_code : string;
  qty : option float;
  rate : option float;
  amount : option float;
  warehouse : option string;
  valuation_rate : option float
}.

Definition set_amount (it : t) (a : float) : t :=
  mk (item_code it) (qty it) (rate it) (Some a) (warehouse it)
     (valuation_rate it).
End Item.

Module Tax.
Record t := mk {
  charge_type : string;
  rate : option float;
  tax_amount : option float;
  account_head : string
}.

Definition set_tax_amount (tx : t) (a : float) : t :=
  mk (charge_type tx) (rate tx) (Some a) (account_head tx).
End Tax.

Record document := mkDoc {
  name : string;
  doctype : string;
  customer : option string;
  from_date : option date;
  to_date : option date;
  due_date : option date;
  posting_date : option date;
  items : list Item.t;
  taxes : list Tax.t;
  total_qty : option float;
  total_amount : option float;
  total_tax : option float;
  grand_total : option float;
  debit_account : option string;
  credit_account : option string
}.

Definition set_items (d : document) (v : list Item.t) : document :=
  mkDoc (name d) (doctype d) (customer d) (from_date d) (to_date d)
        (due_date d) (posting_date d) v (taxes d) (total_qty d)
        (total_amount d) (total_tax d) (grand_total d) (debit_account d)
        (credit_account d).

Definition set_taxes (d : document) (v : list Tax.t) : document :=
  mkDoc (name d) (doctype d) (customer d) (from_date d) (to_date d)
        (due_date d) (posting_date d) (items d) v (total_qty d)
        (total_amount d) (total_tax d) (grand_total d) (debit_account d)
        (credit_account d).

Definition set_total_qty (d : document) (v : option float) : document :=
  mkDoc (name d) (doctype d) (customer d) (from_date d) (to_date d)
        (due_date d) (posting_date d) (items d) (taxes d) v
        (total_amount d) (total_tax d) (grand_total d) (debit_account d)
        (credit_account d).

Definition set_total_amount (d : document) (v : option float) : document :=
  mkDoc (name d) (doctype d) (customer d) (from_date d) (to_date d)
        (due_date d) (posting_date d) (items d) (taxes d) (total_qty d)
        v (total_tax d) (grand_total d) (debit_account d)
        (credit_account d).

Definition set_total_tax (d : document) (v : option float) : document :=
  mkDoc (name d) (doctype d) (customer d) (from_date d) (to_date d)
        (due_date d) (posting_date d) (items d) (taxes d) (total_qty d)
        (total_amount d) v (grand_total d) (debit_account d)
        (credit_account d).

Definition set_grand_total (d : document) (v : option float) : document :=
  mkDoc (name d) (doctype d) (customer d) (from_date d) (to_date d)
        (due_date d) (posting_date d) (items d) (taxes d) (total_qty d)
        (total_amount d) (total_tax d) v (debit_account d)
        (credit_account d).

(** Python's [a + b] on two document fields; both must hold numbers
    ([None + x] is a [TypeError], rendered here as [None]). *)
Definition num_add (a b : option float) : option float :=
  match a, b with
  | Some x, Some y => Some (x + y)
  | _, _ => None
  end.

(** One turn of the loop of [calculate_taxes]. *)
Definition tax_step (total_amount : option float) (tx : Tax.t) : Tax.t :=
  if String.eqb (Tax.charge_type tx) "On Net Total" then
    Tax.set_tax_amount tx (flt total_amount * flt (Tax.rate tx) / 100)
  else if String.eqb (Tax.charge_type tx) "Actual" then
    tx
  else
    tx.

(** The loop of [calculate_taxes]; [acc] is the running [self.total_tax]. *)
Fixpoint taxes_loop (total_amount : option float) (txs : list Tax.t)
  (acc : float) : list Tax.t * float :=
  match txs with
  | [] => ([], acc)
  | tx :: rest =>
      let tx' := tax_step total_amount tx in
      let '(rest', acc') :=
        taxes_loop total_amount rest (acc + flt (Tax.tax_amount tx')) in
      (tx' :: rest', acc')
  end.

Definition calculate_taxes (d : document) : document :=
  let '(txs, acc) := taxes_loop (total_amount d) (taxes d) 0 in
  set_total_tax (set_taxes d txs) (Some acc).

(** The loop of [calculate_totals]; [tq] and [ta] are the running
    [self.total_qty] and [self.total_amount]. *)
Fixpoint items_loop (its : list Item.t) (tq ta : float)
  : list Item.t * float * float :=
  match its with
  | [] => ([], tq, ta)
  | it :: rest =>
      let a := flt (Item.qty it) * flt (Item.rate it) in
      let '(rest', tq', ta') :=
        items_loop rest (tq + flt (Item.qty it)) (ta + a) in
      (Item.set_amount it a :: rest', tq', ta')
  end.

Definition calculate_totals (d : document) : document :=
  let '(its, tq, ta) := items_loop (items d) 0 0 in
  let d1 := set_total_amount (set_total_qty (set_items d its) (Some tq))
                             (Some ta) in
  let d2 := calculate_taxes d1 in
  set_grand_total d2 (num_add (total_amount d2) (total_tax d2)).

(** The dict literals handed to [get_gl_dict] in [make_gl_entries]. *)
Record gl_dict := mkGL {
  gl_account : option string;
  gl_party_type : option string;
  gl_party : option string;
  gl_debit : option float;
  gl_credit : option float;
  gl_against : option string
}.

Definition debit_entry (d : document) : gl_dict :=
  mkGL (debit_account d) (Some "Customer"%string) (customer d)
       (grand_total d) (Some 0) (credit_account d).

Definition credit_entry (d : document) : gl_dict :=
  mkGL (credit_account d) None None (Some 0) (total_amount d) (customer d).

Definition tax_entry (d : document) (tx : Tax.t) : gl_dict :=
  mkGL (Some (Tax.account_head tx)) None None (Some 0) (Tax.tax_amount tx)
       (customer d).

(** The list [make_gl_entries] builds, before [get_gl_dict] is applied to
    each of its dicts. *)
Definition gl_args (d : document) : list gl_dict :=
  [debit_entry d; credit_entry d] ++ map (tax_entry d) (taxes d).

(** The sum a [+=] loop computes: from 0, left to right, every addition
    rounded. *)
Definition sum_in_order (l : list float) : float :=
  fold_left PrimFloat.add l 0.

Definition total_debit (l : list gl_dict) : float :=
  sum_in_order (map (fun e => flt (gl_debit e)) l).

Definition total_credit (l : list gl_dict) : float :=
  sum_in_order (map (fun e => flt (gl_credit e)) l).

(** What [calculate_taxes] does to one tax row, for the net total [ta]. *)
Definition tax_row_updated (ta : float) (tx tx' : Tax.t) : Prop :=
  (Tax.charge_type tx = "On Net Total"%string ->
   tx' = Tax.set_tax_amount tx (ta * flt (Tax.rate tx) / 100))
  /\ (Tax.charge_type tx = "Actual"%string -> tx' = tx).

(** The rows of the end-to-end example. *)
Definition example_items : list Item.t :=
  [Item.mk "ITEM-A" (Some 2) (Some 100) None None None;
   Item.mk "ITEM-B" (Some 1) (Some 50) None None None].

Definition example_taxes : list Tax.t :=
  [Tax.mk "On Net Total" (Some 10) None "VAT"].

(** A document whose net total overflows, with a negative tax rate. *)
Definition overflowing_doc : document :=
  mkDoc "DOC-0009" "Custom DocType" (Some "ACME"%string) None None None None
        [Item.mk "ITEM-A" (Some 1e308) (Some 10) None None None]
        [Tax.mk "On Net Total" (Some (-1)) None "Rebate"]
        None None None None None None.

(** A document with one row of 0.14 and three taxes of fixed amount. *)
Definition cents_doc : document :=
  mkDoc "DOC-0010" "Custom DocType" (Some "ACME"%string) None None None None
        [Item.mk "ITEM-A" (Some 1) (Some 0.14) None None None]
        [Tax.mk "Actual" None (Some 3.33) "Freight";
         Tax.mk "Actual" None (Some 2.78) "Duty";
         Tax.mk "Actual" None (Some 0.05) "Stamp"]
        None None None None
        (Some "Debtors"%string) (Some "Sales"%string).

End Binary64.

(** ** Definitions used to state the properties *)

(** The amount [calculate_totals] writes on a row. *)
Definition amount_of (it : Item.t) : Q := flt (Item.qty it) * flt (Item.rate it).

Definition example_taxes : list Tax.t :=
  [Tax.mk "On Net Total" (Some 10) None "VAT"].

(** A list of checks run in order until the first one that fails: the
    outcome is the failing check's, and the checks after it do not run. *)
Inductive runs_to : list (M unit) -> world -> result unit * world -> Prop :=
| runs_nil w : runs_to [] w (Ok tt, w)
| runs_ok c l w w' r :
    c w = (Ok tt, w') -> runs_to l w' r -> runs_to (c :: l) w r
| runs_fail c l w w' e :
    c w = (Raise e, w') -> runs_to (c :: l) w (Raise e, w').

(** The checks of [validate], in the order of its body. *)
Definition validate_checks (E : env) : list (M unit) :=
  [validate_required_fields; validate_dates E; validate_quantities;
   modify_doc calculate_totals; validate_against_stock E].

(** The same checks in the order of the specification's sentence: the
    availability check before the totals. *)
Definition validate_checks_as_specified (E : env) : list (M unit) :=
  [validate_required_fields; validate_dates E; validate_quantities;
   validate_against_stock E; modify_doc calculate_totals].

(** How a number is printed in the example environment. *)
Definition show_num (q : Q) : string :=
  if Pos.eqb (Qden q) 1 then pretty (Qnum q)
  else (pretty (Qnum q) ++ "/" ++ pretty (Zpos (Qden q)))%string.

(** An example environment: three units of everything in every warehouse,
    no earlier submitted record, a ledger that takes every call. *)
Definition ex_env : env :=
  mkEnv (fun _ _ => Ok 3) (fun _ => false) 0%Z show_num
        (fun _ _ => None).

(** Helpers that do nothing. *)
Definition noop_helpers : helpers :=
  mkHelpers (ret tt) (ret tt) (ret tt) (ret tt) (ret tt) (ret tt) (ret tt)
            (ret tt) (ret tt) (ret tt) (ret tt) (ret tt) (ret tt)
            (fun _ _ => ret tt) (fun _ e => e) (ret []).

(** A document asking for five units where three are available. *)
Definition short_stock_doc : document :=
  mkDoc "DOC-0001" "Custom DocType" (Some "ACME"%string) None None None None
        [Item.mk "ITEM-A" (Some 5) (Some 100) None (Some "Stores"%string) None]
        example_taxes None None None None
        (Some "Debtors"%string) (Some "Sales"%string).

Definition short_stock_world : world := mkWorld short_stock_doc [].

(** The availability collaborator answers every question (it raises
    nothing of its own). *)
Definition stock_reads_ok (E : env) : Prop :=
  forall code wh, exists a, get_stock_balance E code wh = Ok a.

(** A row asks for more than the collaborator reports for its item and
    warehouse. *)
Definition short_of_stock (E : env) (it : Item.t) : Prop :=
  exists wh q a,
    Item.warehouse it = Some wh /\ wh <> EmptyString
    /\ Item.qty it = Some q
    /\ get_stock_balance E (Item.item_code it) wh = Ok a
    /\ a < q.

(** The steps of a sequence that come after its persistence step. *)
Fixpoint after_persist (steps : list step) : list step :=
  match steps with
  | [] => []
  | Persist :: rest => rest
  | Hook _ :: rest => after_persist rest
  end.

(** A document at the start of a transition: a draft, nothing invoked, an
    empty ledger. *)
Definition draft_state (d : document) : seq_state :=
  mkSeq Draft [] (mkWorld d []).

(** A document with a customer and a row of quantity zero. *)
Definition zero_qty_doc : document :=
  mkDoc "DOC-0002" "Custom DocType" (Some "ACME"%string) None None None None
        [Item.mk "ITEM-A" (Some 0) (Some 100) None None None]
        [] None None None None None None.

(** The same row on a document without a customer. *)
Definition zero_qty_no_customer_doc : document :=
  mkDoc "DOC-0003" "Custom DocType" None None None None None
        [Item.mk "ITEM-A" (Some 0) (Some 100) None None None]
        [] None None None None None None.

(** A document asking for two units where three are available. *)
Definition in_stock_doc : document :=
  mkDoc "DOC-0004" "Custom DocType" (Some "ACME"%string) None None None None
        [Item.mk "ITEM-A" (Some 2) (Some 100) None (Some "Stores"%string) None]
        example_taxes None None None None
        (Some "Debtors"%string) (Some "Sales"%string).

(** The example environment with a ledger that is out of reach. *)
Definition ledger_down_env : env :=
  mkEnv (fun _ _ => Ok 3) (fun _ => false) 0%Z show_num
        (fun _ _ => Some (mkExc ExternalDependencyError "Ledger unavailable")).

(** The method the template registers at a hook point, if any. *)
Definition method_of (E : env) (H : helpers) (old_name new_name : string)
  (merge : bool) (h : hook_point) : option (M unit) :=
  match h with
  | hp_before_insert => Some (before_insert E H)
  | hp_validate => Some (validate E)
  | hp_before_save => Some (before_save H)
  | hp_on_update => Some (on_update H)
  | hp_after_insert => Some (after_insert H)
  | hp_before_submit => Some (before_submit H)
  | hp_validate_for_submit => None
  | hp_on_submit => Some (on_submit E H)
  | hp_before_cancel => Some (before_cancel H)
  | hp_on_cancel => Some (on_cancel E H)
  | hp_on_trash => Some (on_trash H)
  | hp_after_delete => Some (after_delete H)
  | hp_before_rename => Some (before_rename H old_name new_name merge)
  | hp_after_rename => Some (after_rename H old_name new_name merge)
  end.

(** Modelled from the spec: the ledger collaborator is not part of the
    templates; the reversal entry it records for an entry is the same entry,
    sign inverted. *)
Definition reversal_of (e : gl_dict) : gl_dict :=
  mkGL (gl_account e) (gl_party_type e) (gl_party e)
       (option_map Qopp (gl_debit e)) (option_map Qopp (gl_credit e))
       (gl_against e).

(** Modelled from the spec: what a call [post_entries(entries, reversal)]
    leaves in the ledger: the entries, or one reversal entry for each. *)
Definition recorded_entries (c : ledger_call) : list gl_dict :=
  if lc_cancel c then map reversal_of (lc_entries c) else lc_entries c.

(** Modelled from the spec: [get_gl_entries] is called by
    [cancel_gl_entries] and has no body in the template; it answers with the
    ledger entries created for this document at submit time. *)
Definition submitted_gl_entries : M (list gl_dict) :=
  fun w =>
    (Ok (List.concat
           (map lc_entries
                (List.filter
                   (fun c => String.eqb (lc_voucher c) (name (doc w))
                             && negb (lc_cancel c))
                   (ledger w)))),
     w).

(** A method that neither touches the ledger nor renames the document. *)
Definition quiet {A} (m : M A) : Prop :=
  forall w r w',
    m w = (r, w') -> ledger w' = ledger w /\ name (doc w') = name (doc w).

(** A method that raises nothing. *)
Definition succeeds (m : M unit) : Prop :=
  forall w, exists w', m w = (Ok tt, w').

(** What is assumed of the methods without a body that run during submit and
    cancel. *)
Record ledger_neutral (E : env) (H : helpers) : Prop := mkNeutral {
  ln_check_permissions : quiet (check_permissions H);
  ln_validate_for_submit : quiet (validate_for_submit H);
  ln_create_related_documents : quiet (create_related_documents H);
  ln_update_status : quiet (update_status H);
  ln_check_if_cancel_allowed : quiet (check_if_cancel_allowed H);
  ln_cancel_stock_ledger : quiet (cancel_stock_ledger H);
  ln_cancel_related_documents : quiet (cancel_related_documents H)
}.

Record cancel_allowed (H : helpers) : Prop := mkAllowed {
  ca_check_if_cancel_allowed : succeeds (check_if_cancel_allowed H);
  ca_cancel_stock_ledger : succeeds (cancel_stock_ledger H);
  ca_cancel_related_documents : succeeds (cancel_related_documents H)
}.

(** An entry and its reversal: same account, amounts of opposite sign. *)
Definition sign_inverted (e r : gl_dict) : Prop :=
  gl_account r = gl_account e
  /\ gl_party r = gl_party e
  /\ flt (gl_debit r) == - flt (gl_debit e)
  /\ flt (gl_credit r) == - flt (gl_credit e).

(** Helpers that do nothing, with [get_gl_entries] as modelled. *)
Definition ledger_helpers : helpers :=
  mkHelpers (ret tt) (ret tt) (ret tt) (ret tt) (ret tt) (ret tt) (ret tt)
            (ret tt) (ret tt) (ret tt) (ret tt) (ret tt) (ret tt)
            (fun _ _ => ret tt) (fun _ e => e) submitted_gl_entries.

(** The state reached by submitting the document that is in stock. *)
Definition submitted_state : seq_state :=
  snd (run_transition Submit
         (controller_callbacks ex_env ledger_helpers "" "" false)
         (draft_state in_stock_doc)).

(** ** Definitions used to state further properties of the controller *)

(** A row that passes [validate_quantities]. *)
Definition quantity_ok (it : Item.t) : Prop :=
  0 < flt (Item.qty it) /\ 0 <= flt (Item.rate it).

(** The message [validate_quantities] raises for a row that does not. *)
Definition quantity_error (it : Item.t) : string :=
  if Qle_bool (flt (Item.qty it)) 0
  then ("Quantity must be greater than 0 for item " ++ Item.item_code it)%string
  else ("Rate cannot be negative for item " ++ Item.item_code it)%string.

(** A row that passes [validate_against_stock]: if it names a warehouse and
    a quantity other than zero, the collaborator reports at least that
    much. *)
Definition stock_ok (E : env) (it : Item.t) : Prop :=
  forall wh q,
    Item.warehouse it = Some wh -> wh <> EmptyString ->
    Item.qty it = Some q -> ~ q == 0 ->
    exists a, get_stock_balance E (Item.item_code it) wh = Ok a /\ q <= a.

(** Dates that pass [validate_dates]. *)
Definition dates_ok (E : env) (d : document) : Prop :=
  (forall f t, from_date d = Some f -> to_date d = Some t -> (f <= t)%Z)
  /\ (forall du, due_date d = Some du ->
                 (getdate E (posting_date d) <= du)%Z).

(** The example environment with a stock collaborator that is out of
    reach. *)
Definition stock_down_env : env :=
  mkEnv (fun _ _ => Raise (mkExc ExternalDependencyError "Stock unavailable"))
        (fun _ => false) 0%Z show_num (fun _ _ => None).

(** A document with a good row followed by a row of negative rate. *)
Definition negative_rate_doc : document :=
  mkDoc "DOC-0007" "Custom DocType" (Some "ACME"%string) None None None None
        [Item.mk "ITEM-A" (Some 2) (Some 100) None None None;
         Item.mk "ITEM-B" (Some 1) (Some (-5)) None None None;
         Item.mk "ITEM-C" (Some 0) (Some 1) None None None]
        [] None None None None None None.

(** A document whose second row names a warehouse, under a stock
    collaborator that is out of reach. *)
Definition warehouse_on_second_row_doc : document :=
  mkDoc "DOC-0008" "Custom DocType" (Some "ACME"%string) None None None None
        [Item.mk "ITEM-A" (Some 2) (Some 100) None None None;
         Item.mk "ITEM-B" (Some 1) (Some 50) None (Some "Stores"%string) None]
        [] None None None None None None.

(** The document that is in stock, after [validate]. *)
Definition validated_world : world :=
  snd (validate ex_env (mkWorld in_stock_doc [])).

(** ** More of the API endpoints *)

Module Api.

(** [frappe.db.set_value("Customer", id, "credit_limit", v)]: the row named
    [id] gets the value; when there is no such row nothing changes. *)
Definition set_credit_limit (c : Customer.t) (v : option Q) : Customer.t :=
  Customer.mk (Customer.name c) (Customer.customer_name c)
              (Customer.customer_type c) v (Customer.territory c)
              (Customer.customer_group c).

Definition db_set_credit_limit (db : gmap string Customer.t) (id : string)
  (v : Q) : gmap string Customer.t :=
  alter (fun c => set_credit_limit c (Some v)) id db.

Definition update_customer_credit_limit (db : gmap string Customer.t)
  (customer : string) (credit_limit : option Q)
  : bool * gmap string Customer.t :=
  (true, db_set_credit_limit db customer (flt credit_limit)).

(** [SELECT SUM(actual_qty) FROM `tabStock Ledger Entry` WHERE item_code = %s]:
    the sum over the rows of the item, and NULL when there is none. *)
Definition sql_sum_actual_qty (table : list sl_dict) (item_code : string)
  : option Q :=
  match List.filter (fun r => String.eqb (sl_item_code r) item_code) table with
  | [] => None
  | r :: rows => Some (Qsum (map sl_actual_qty (r :: rows)))
  end.

(** The endpoint [get_stock_balance(item_code, warehouse=None)]; [table] is
    the stock ledger the query reads. *)
Definition get_stock_balance (E : env) (table : list sl_dict)
  (item_code : string) (warehouse : option string) : result Q :=
  match warehouse with
  | Some wh =>
      if negb (String.eqb wh EmptyString)
      then get_stock_balance E item_code wh
      else Ok (flt (sql_sum_actual_qty table item_code))
  | None => Ok (flt (sql_sum_actual_qty table item_code))
  end.

(** [d.get(key)] and [d.get(key, default)] on a parsed JSON object. *)
Definition dict_get (d : gmap string json) (key : string) : json :=
  match d !! key with
  | Some v => v
  | None => JNull
  end.

Definition dict_get_or (d : gmap string json) (key : string) (dflt : json)
  : json :=
  match d !! key with
  | Some v => v
  | None => dflt
  end.

(** The document [bulk_create_customers] builds from one record. *)
Record new_customer := mkNew {
  nc_customer_name : json;
  nc_customer_type : json;
  nc_customer_group : json;
  nc_territory : json
}.

Definition customer_of_data (customer_data : gmap string json) : new_customer :=
  mkNew (dict_get customer_data "customer_name")
        (dict_get_or customer_data "customer_type" (JStr "Company"))
        (dict_get_or customer_data "customer_group"
                     (JStr "All Customer Groups"))
        (dict_get_or customer_data "territory" (JStr "All Territories")).

(** An entry of the list of errors. *)
Record bulk_error := mkBulkError {
  be_customer_name : json;
  be_error : string
}.

(** The answer of [bulk_create_customers]. *)
Record bulk_result := mkBulk {
  created : list string;
  errors : list bulk_error
}.

Section Bulk.

(** The persistence collaborator: its state, and [frappe.get_doc(...)]
    followed by [insert()], which gives the new document's name or raises. *)
Variable S : Type.
Variable insert : new_customer -> S -> result string * S.

(** The loop of [bulk_create_customers], with its two lists. *)
Fixpoint bulk_loop (customers_data : list (gmap string json))
  (acc : bulk_result) (s : S) : bulk_result * S :=
  match customers_data with
  | [] => (acc, s)
  | customer_data :: rest =>
      match insert (customer_of_data customer_data) s with
      | (Ok nm, s') =>
          bulk_loop rest (mkBulk (created acc ++ [nm]) (errors acc)) s'
      | (Raise e, s') =>
          bulk_loop rest
            (mkBulk (created acc)
                    (errors acc
                       ++ [mkBulkError (dict_get customer_data "customer_name")
                                       (exc_msg e)]))
            s'
      end
  end.

(** [customers_data] is the list of records, after [json.loads] when the
    request carried a string. *)
Definition bulk_create_customers (customers_data : list (gmap string json))
  (s : S) : bulk_result * S :=
  bulk_loop customers_data (mkBulk [] []) s.

End Bulk.

End Api.

(** A persistence collaborator for the examples: it numbers the customers it
    takes, and takes every one. *)
Definition accepting_insert (c : Api.new_customer) (n : nat)
  : result string * nat :=
  (Ok ("CUST-" ++ pretty n)%string, Datatypes.S n).

(** Three records; the second has no name. *)
Definition example_customers : list (gmap string json) :=
  [ {[ "customer_name"%string := JStr "Alpha" ]};
    {[ "customer_type"%string := JStr "Individual" ]};
    {[ "customer_name"%string := JStr "Gamma";
       "territory"%string := JNull ]} ].

(** A stock ledger with rows for two items. *)
Definition example_stock_table : list sl_dict :=
  [mkSL "ITEM-A" (Some "Stores"%string) 10 "SE-1" "Stock Entry" None None;
   mkSL "ITEM-B" (Some "Stores"%string) 4 "SE-1" "Stock Entry" None None;
   mkSL "ITEM-A" (Some "Yard"%string) (-3) "DN-1" "Delivery Note" None None].

(** A table of customers with one row. *)
Definition example_customer_db : gmap string Customer.t :=
  {[ "CUST-1"%string :=
       Customer.mk "CUST-1" (Some "Alpha"%string) (Some "Company"%string)
                   (Some 1000) None None ]}.

(** * Properties *)

(** ** The calculation methods *)

Lemma items_loop_rows its tq ta :
  fst (fst (items_loop its tq ta))
  = map (fun it => Item.set_amount it (amount_of it)) its.
Proof.
  revert tq ta. induction its as [|it rest IH]; intros tq ta; simpl.
  - reflexivity.
  - specialize (IH (tq + flt (Item.qty it)) (ta + flt (Item.qty it) * flt (Item.rate it))).
    destruct (items_loop rest _ _) as [[rest' tq'] ta']. simpl in *.
    now rewrite IH.
Qed.



Lemma taxes_loop_rows ta txs acc :
  fst (taxes_loop ta txs acc) = map (tax_step ta) txs.
Proof.
  revert acc. induction txs as [|tx rest IH]; intros acc; simpl.
  - reflexivity.
  - specialize (IH (acc + flt (Tax.tax_amount (tax_step ta tx)))).
    destruct (taxes_loop ta rest _) as [rest' acc']. simpl in *.
    now rewrite IH.
Qed.


Lemma calculate_taxes_fields d :
  taxes (calculate_taxes d) = map (tax_step (total_amount d)) (taxes d)
  /\ total_tax (calculate_taxes d)
     = Some (snd (taxes_loop (total_amount d) (taxes d) 0))
  /\ items (calculate_taxes d) = items d
  /\ total_qty (calculate_taxes d) = total_qty d
  /\ total_amount (calculate_taxes d) = total_amount d
  /\ customer (calculate_taxes d) = customer d.
Proof.
  unfold calculate_taxes.
  pose proof (taxes_loop_rows (total_amount d) (taxes d) 0) as Hr.
  destruct (taxes_loop (total_amount d) (taxes d) 0) as [txs acc].
  simpl in *. subst txs. repeat split; reflexivity.
Qed.

Lemma calculate_totals_fields d :
  let ta := snd (items_loop (items d) 0 0) in
  let tt := snd (taxes_loop (Some ta) (taxes d) 0) in
  items (calculate_totals d)
  = map (fun it => Item.set_amount it (amount_of it)) (items d)
  /\ total_qty (calculate_totals d)
     = Some (snd (fst (items_loop (items d) 0 0)))
  /\ total_amount (calculate_totals d) = Some ta
  /\ taxes (calculate_totals d) = map (tax_step (Some ta)) (taxes d)
  /\ total_tax (calculate_totals d) = Some tt
  /\ grand_total (calculate_totals d) = Some (ta + tt)
  /\ customer (calculate_totals d) = customer d.
Proof.
  unfold calculate_totals.
  pose proof (items_loop_rows (items d) 0 0) as Hr.
  destruct (items_loop (items d) 0 0) as [[its tq] ta]. simpl in Hr. subst its.
  cbv zeta.
  match goal with
  | |- context [calculate_taxes ?x] =>
      destruct (calculate_taxes_fields x) as (T1 & T2 & T3 & T4 & T5 & T6);
      simpl in T1, T2, T3, T4, T5, T6
  end.
  simpl. rewrite T1, T2, T3, T4, T5, T6. simpl.
  repeat split; reflexivity.
Qed.


(** ** The calculation methods in binary64 *)

Section Binary64Properties.

Import Binary64.
Local Open Scope float_scope.

Lemma items_loop_rows64 its tq ta :
  fst (fst (items_loop its tq ta))
  = map (fun it =>
           Item.set_amount it (flt (Item.qty it) * flt (Item.rate it))) its.
Proof.
  revert tq ta. induction its as [|it rest IH]; intros tq ta; simpl.
  - reflexivity.
  - specialize (IH (tq + flt (Item.qty it))
                   (ta + flt (Item.qty it) * flt (Item.rate it))).
    destruct (items_loop rest _ _) as [[rest' tq'] ta']. simpl in *.
    now rewrite IH.
Qed.

(** The running totals are sums in row order, each addition rounded. *)
Lemma items_loop_qty64 its tq ta :
  snd (fst (items_loop its tq ta))
  = fold_left PrimFloat.add (map (fun it => flt (Item.qty it)) its) tq.
Proof.
  revert tq ta. induction its as [|it rest IH]; intros tq ta; simpl.
  - reflexivity.
  - specialize (IH (tq + flt (Item.qty it))
                   (ta + flt (Item.qty it) * flt (Item.rate it))).
    destruct (items_loop rest _ _) as [[rest' tq'] ta']. simpl in *.
    exact IH.
Qed.

Lemma items_loop_amount64 its tq ta :
  snd (items_loop its tq ta)
  = fold_left PrimFloat.add
              (map (fun it => flt (Item.qty it) * flt (Item.rate it)) its) ta.
Proof.
  revert tq ta. induction its as [|it rest IH]; intros tq ta; simpl.
  - reflexivity.
  - specialize (IH (tq + flt (Item.qty it))
                   (ta + flt (Item.qty it) * flt (Item.rate it))).
    destruct (items_loop rest _ _) as [[rest' tq'] ta']. simpl in *.
    exact IH.
Qed.

Lemma taxes_loop_rows64 ta txs acc :
  fst (taxes_loop ta txs acc) = map (tax_step ta) txs.
Proof.
  revert acc. induction txs as [|tx rest IH]; intros acc; simpl.
  - reflexivity.
  - specialize (IH (acc + flt (Tax.tax_amount (tax_step ta tx)))).
    destruct (taxes_loop ta rest _) as [rest' acc']. simpl in *.
    now rewrite IH.
Qed.

Lemma taxes_loop_sum64 ta txs acc :
  snd (taxes_loop ta txs acc)
  = fold_left PrimFloat.add
              (map (fun tx => flt (Tax.tax_amount tx)) (map (tax_step ta) txs))
              acc.
Proof.
  revert acc. induction txs as [|tx rest IH]; intros acc; simpl.
  - reflexivity.
  - specialize (IH (acc + flt (Tax.tax_amount (tax_step ta tx)))).
    destruct (taxes_loop ta rest _) as [rest' acc']. simpl in *.
    exact IH.
Qed.

Lemma calculate_totals_fields64 d :
  let ta := snd (items_loop (items d) 0 0) in
  let tt := snd (taxes_loop (Some ta) (taxes d) 0) in
  calculate_totals d
  = mkDoc (name d) (doctype d) (customer d) (from_date d) (to_date d)
          (due_date d) (posting_date d)
          (map (fun it =>
                  Item.set_amount it (flt (Item.qty it) * flt (Item.rate it)))
               (items d))
          (map (tax_step (Some ta)) (taxes d))
          (Some (snd (fst (items_loop (items d) 0 0))))
          (Some ta) (Some tt) (Some (ta + tt))
          (debit_account d) (credit_account d).
Proof.
  unfold calculate_totals, calculate_taxes.
  pose proof (items_loop_rows64 (items d) 0 0) as Hr.
  destruct (items_loop (items d) 0 0) as [[its tq] ta]. simpl in Hr. subst its.
  simpl.
  pose proof (taxes_loop_rows64 (Some ta) (taxes d) 0) as Ht.
  destruct (taxes_loop (Some ta) (taxes d) 0) as [txs acc]. simpl in Ht.
  subst txs. reflexivity.
Qed.

(** C1. In the arithmetic of the code, [calculate_totals] writes
    [amount = qty * rate] on every row, in order; [total_qty] is the sum of
    the quantities and [total_amount] the sum of the amounts, added in row
    order; a tax row "On Net Total" gets [total_amount * rate / 100], a row
    "Actual" is passed through; [total_tax] is the sum of the tax amounts in
    row order and [grand_total] is [total_amount + total_tax].  On the
    example (2 x 100 and 1 x 50, one tax of 10 percent on the net total) the
    results are 250, 25 and 275. *)
Theorem calculate_totals_in_binary64 :
  (forall d,
     let d' := calculate_totals d in
     exists ta tt,
       items d' = map (fun it =>
                         Item.set_amount it
                           (flt (Item.qty it) * flt (Item.rate it)))
                      (items d)
       /\ total_qty d'
          = Some (sum_in_order (map (fun it => flt (Item.qty it)) (items d)))
       /\ total_amount d' = Some ta
       /\ ta = sum_in_order (map (fun it => flt (Item.amount it)) (items d'))
       /\ Forall2 (tax_row_updated ta) (taxes d) (taxes d')
       /\ total_tax d' = Some tt
       /\ tt = sum_in_order (map (fun tx => flt (Tax.tax_amount tx))
                                 (taxes d'))
       /\ grand_total d' = Some (ta + tt))
  /\ (forall d0,
        let d' := calculate_totals
                    (set_taxes (set_items d0 example_items) example_taxes) in
        total_amount d' = Some 250
        /\ total_tax d' = Some 25
        /\ grand_total d' = Some 275).
Proof.
  split.
  - intros d d'. subst d'. rewrite (calculate_totals_fields64 d).
    cbn [items taxes total_qty total_amount total_tax grand_total].
    eexists _, _.
    split; [reflexivity|]. split.
    { rewrite items_loop_qty64. reflexivity. }
    split; [reflexivity|]. split.
    { rewrite items_loop_amount64, map_map. reflexivity. }
    split.
    { generalize (snd (items_loop (items d) 0 0)) as ta. intros ta.
      induction (taxes d) as [|tx rest IH]; constructor.
      - unfold tax_row_updated, tax_step. split; intros Hc; rewrite Hc;
          reflexivity.
      - exact IH. }
    split; [reflexivity|]. split.
    { rewrite taxes_loop_sum64. reflexivity. }
    reflexivity.
  - intros d0 d'. subst d'. repeat split; vm_compute; reflexivity.
Qed.

(** C4, as amended. After [calculate_totals] the three totals hold numbers
    and [grand_total] is the binary64 value [total_amount + total_tax]; the
    test [grand_total == total_amount + total_tax] holds whenever that value
    is not NaN. *)
Theorem grand_total_is_the_binary64_sum :
  forall d,
    exists ta tt g,
      total_amount (calculate_totals d) = Some ta
      /\ total_tax (calculate_totals d) = Some tt
      /\ grand_total (calculate_totals d) = Some g
      /\ g = ta + tt
      /\ num_add (total_amount (calculate_totals d))
                 (total_tax (calculate_totals d))
         = grand_total (calculate_totals d)
      /\ (PrimFloat.is_nan g = false -> PrimFloat.eqb g (ta + tt) = true).
Proof.
  intros d. rewrite (calculate_totals_fields64 d).
  cbn [total_amount total_tax grand_total num_add].
  eexists _, _, _. repeat (split; [reflexivity|]).
  unfold PrimFloat.is_nan. intros Hnan.
  apply negb_false_iff in Hnan. exact Hnan.
Qed.

(** C4, as stated, fails: one row of quantity 1e308 at rate 10, both
    acceptable to [validate_quantities], and a tax of -1 percent on the net
    total give a net total of infinity and a total tax of minus infinity;
    the grand total is NaN and the test
    [grand_total == total_amount + total_tax] is false. *)
Lemma grand_total_can_be_nan :
  Forall (fun it =>
            PrimFloat.leb (flt (Item.qty it)) 0 = false
            /\ PrimFloat.ltb (flt (Item.rate it)) 0 = false)
         (items overflowing_doc)
  /\ exists ta tt g,
       total_amount (calculate_totals overflowing_doc) = Some ta
       /\ total_tax (calculate_totals overflowing_doc) = Some tt
       /\ grand_total (calculate_totals overflowing_doc) = Some g
       /\ PrimFloat.is_nan g = true
       /\ PrimFloat.eqb g (ta + tt) = false.
Proof.
  split.
  - repeat constructor.
  - eexists _, _, _.
    split; [vm_compute; reflexivity|].
    split; [vm_compute; reflexivity|].
    split; [vm_compute; reflexivity|].
    split; vm_compute; reflexivity.
Qed.

(** C9, as amended. The dicts [make_gl_entries] builds from a document whose
    totals have been calculated are: one debit entry, of the grand total;
    one credit entry, of the net total; and one credit entry per tax row, of
    that row's tax amount; every other amount is 0. The grand total is the
    binary64 value of the net total plus the total tax, itself the sum of
    the tax amounts in row order: the debits and the credits add up the same
    amounts, grouped differently. *)
Theorem gl_entries_amounts :
  forall d,
    let d' := calculate_totals d in
    exists ta tt,
      total_amount d' = Some ta
      /\ total_tax d' = Some tt
      /\ tt = sum_in_order (map (fun tx => flt (Tax.tax_amount tx)) (taxes d'))
      /\ grand_total d' = Some (ta + tt)
      /\ gl_args d'
         = mkGL (debit_account d) (Some "Customer"%string) (customer d)
                (Some (ta + tt)) (Some 0) (credit_account d)
           :: mkGL (credit_account d) None None (Some 0) (Some ta) (customer d)
           :: map (fun tx =>
                     mkGL (Some (Tax.account_head tx)) None None (Some 0)
                          (Tax.tax_amount tx) (customer d))
                  (taxes d')
      /\ length (gl_args d') = Datatypes.S (Datatypes.S (length (taxes d)))
      /\ total_debit (gl_args d')
         = fold_left PrimFloat.add (map (fun _ => 0) (taxes d'))
                     (0 + (ta + tt) + 0)
      /\ total_credit (gl_args d')
         = fold_left PrimFloat.add
                     (map (fun tx => flt (Tax.tax_amount tx)) (taxes d'))
                     (0 + 0 + ta).
Proof.
  intros d d'. subst d'. rewrite (calculate_totals_fields64 d).
  cbn [total_amount total_tax grand_total taxes].
  eexists _, _.
  split; [reflexivity|]. split; [reflexivity|]. split.
  { rewrite taxes_loop_sum64. reflexivity. }
  split; [reflexivity|]. split; [reflexivity|]. split.
  { unfold gl_args. cbn [taxes]. simpl. rewrite !length_map. reflexivity. }
  split.
  - unfold total_debit, sum_in_order, gl_args, debit_entry, credit_entry.
    cbn [taxes grand_total total_amount]. simpl. rewrite map_map. reflexivity.
  - unfold total_credit, sum_in_order, gl_args, debit_entry, credit_entry.
    cbn [taxes grand_total total_amount]. simpl. rewrite map_map. reflexivity.
Qed.

(** C9, as stated, fails: for one row of 1 at 0.14 and three taxes of fixed
    amounts 3.33, 2.78 and 0.05, the debits add up to less than the
    credits (6.2999999999999989 against 6.2999999999999998). *)
Lemma gl_entries_unbalanced_by_rounding :
  PrimFloat.eqb
    (total_debit (gl_args (calculate_totals cents_doc)))
    (total_credit (gl_args (calculate_totals cents_doc)))
  = false
  /\ PrimFloat.ltb
       (total_debit (gl_args (calculate_totals cents_doc)))
       (total_credit (gl_args (calculate_totals cents_doc)))
     = true.
Proof.
  split; vm_compute; reflexivity.
Qed.

End Binary64Properties.

(** ** What the checks leave alone *)

Ltac unfold_m :=
  unfold bind, get_doc_self, modify_doc, throw, raise, ret, lift in *.

Lemma Qltb_lt a b : Qltb a b = true <-> a < b.
Proof.
  unfold Qltb. rewrite negb_true_iff. split.
  - intros Hb. apply Qnot_le_lt. intros Hle.
    apply Qle_bool_iff in Hle. congruence.
  - intros Hlt. destruct (Qle_bool b a) eqn:Hb; [|reflexivity].
    apply Qle_bool_iff in Hb. exfalso. exact (Qlt_not_le _ _ Hlt Hb).
Qed.

Lemma validate_required_fields_world w :
  snd (validate_required_fields w) = w.
Proof.
  unfold validate_required_fields. unfold_m.
  destruct (truthy_str (customer (doc w))); simpl; [|reflexivity].
  destruct (items (doc w)); reflexivity.
Qed.

Lemma validate_required_fields_kind w e w' :
  validate_required_fields w = (Raise e, w') -> exc_kind e = ValidationError.
Proof.
  unfold validate_required_fields. unfold_m.
  destruct (truthy_str (customer (doc w))); simpl.
  - destruct (items (doc w)); intros [= <- <-] || intros [=]; reflexivity.
  - intros [= <- <-]. reflexivity.
Qed.

Lemma validate_dates_world E w : snd (validate_dates E w) = w.
Proof.
  unfold validate_dates. unfold_m.
  destruct (from_date (doc w)), (to_date (doc w)), (due_date (doc w)); simpl;
    repeat match goal with
           | |- context [if ?b then _ else _] => destruct b; simpl
           end; reflexivity.
Qed.

Lemma validate_dates_kind E w e w' :
  validate_dates E w = (Raise e, w') -> exc_kind e = ValidationError.
Proof.
  unfold validate_dates. unfold_m.
  destruct (from_date (doc w)), (to_date (doc w)), (due_date (doc w)); simpl;
    repeat match goal with
           | |- context [if ?b then _ else _] => destruct b; simpl
           end; intros [= <- <-] || intros [=]; reflexivity.
Qed.

Lemma validate_quantities_loop_world its w :
  snd (validate_quantities_loop its w) = w.
Proof.
  induction its as [|it rest IH]; simpl; [reflexivity|]. unfold_m.
  destruct (Qle_bool (flt (Item.qty it)) 0); simpl; [reflexivity|].
  destruct (Qltb (flt (Item.rate it)) 0); simpl; [reflexivity|].
  exact IH.
Qed.

Lemma validate_quantities_loop_kind its w e w' :
  validate_quantities_loop its w = (Raise e, w') ->
  exc_kind e = ValidationError.
Proof.
  induction its as [|it rest IH]; simpl; unfold_m; [intros [=]|].
  destruct (Qle_bool (flt (Item.qty it)) 0); simpl;
    [intros [= <- <-]; reflexivity|].
  destruct (Qltb (flt (Item.rate it)) 0); simpl;
    [intros [= <- <-]; reflexivity|].
  exact IH.
Qed.

(** A row whose quantity is not positive stops [validate_quantities]. *)
Lemma validate_quantities_loop_fails its w :
  Exists (fun it => flt (Item.qty it) <= 0) its ->
  exists e, validate_quantities_loop its w = (Raise e, w)
            /\ exc_kind e = ValidationError.
Proof.
  induction 1 as [it rest Hq|it rest _ IH]; simpl; unfold_m.
  - apply Qle_bool_iff in Hq. rewrite Hq. eexists. split; reflexivity.
  - destruct (Qle_bool (flt (Item.qty it)) 0); simpl;
      [eexists; split; reflexivity|].
    destruct (Qltb (flt (Item.rate it)) 0); simpl;
      [eexists; split; reflexivity|].
    exact IH.
Qed.

(** When [validate_quantities] passes, every quantity is positive. *)
Lemma validate_quantities_loop_passes its w w' :
  validate_quantities_loop its w = (Ok tt, w') ->
  Forall (fun it => 0 < flt (Item.qty it)) its.
Proof.
  induction its as [|it rest IH]; simpl; unfold_m; [constructor|].
  destruct (Qle_bool (flt (Item.qty it)) 0) eqn:Hq; simpl; [intros [=]|].
  destruct (Qltb (flt (Item.rate it)) 0); simpl; [intros [=]|].
  intros Hrest. constructor; [|exact (IH Hrest)].
  apply Qnot_le_lt. intros Hle. apply Qle_bool_iff in Hle. congruence.
Qed.

Lemma validate_against_stock_loop_world E its w :
  snd (validate_against_stock_loop E its w) = w.
Proof.
  induction its as [|it rest IH]; simpl; [reflexivity|]. unfold_m.
  destruct (Item.warehouse it) as [wh|], (Item.qty it) as [q|]; simpl;
    try exact IH.
  destruct (negb (String.eqb wh "") && negb (Qeq_bool q 0)); simpl;
    [|exact IH].
  destruct (get_stock_balance E (Item.item_code it) wh) as [a|e]; simpl;
    [|reflexivity].
  destruct (Qltb a q); simpl; [reflexivity|exact IH].
Qed.

Lemma validate_against_stock_loop_kind E its w e w' :
  stock_reads_ok E ->
  validate_against_stock_loop E its w = (Raise e, w') ->
  exc_kind e = ValidationError.
Proof.
  intros Hs.
  induction its as [|it rest IH]; simpl; unfold_m; [intros [=]|].
  destruct (Item.warehouse it) as [wh|], (Item.qty it) as [q|]; simpl;
    try exact IH.
  destruct (negb (String.eqb wh "") && negb (Qeq_bool q 0)); simpl;
    [|exact IH].
  destruct (Hs (Item.item_code it) wh) as [a ->]; simpl.
  destruct (Qltb a q); simpl; [intros [= <- <-]; reflexivity|exact IH].
Qed.

(** A row short of stock, with a quantity that is not zero, stops
    [validate_against_stock]. *)
Lemma validate_against_stock_loop_fails E its w :
  Exists (fun it => short_of_stock E it /\ ~ flt (Item.qty it) == 0) its ->
  exists e, validate_against_stock_loop E its w = (Raise e, w).
Proof.
  induction 1 as [it rest Hbad|it rest _ IH]; simpl; unfold_m.
  - destruct Hbad as [(wh & q & a & Hw & Hne & Hq & Ha & Hlt) Hnz].
    rewrite Hw, Hq, Ha. rewrite Hq in Hnz. simpl in Hnz.
    assert (String.eqb wh "" = false) as -> by (now apply String.eqb_neq).
    assert (Qeq_bool q 0 = false) as ->.
    { destruct (Qeq_bool q 0) eqn:Hb; [|reflexivity].
      apply Qeq_bool_iff in Hb. contradiction. }
    simpl. apply Qltb_lt in Hlt. rewrite Hlt. eexists. reflexivity.
  - destruct (Item.warehouse it) as [wh|], (Item.qty it) as [q|]; simpl;
      try exact IH.
    destruct (negb (String.eqb wh "") && negb (Qeq_bool q 0)); simpl;
      [|exact IH].
    destruct (get_stock_balance E (Item.item_code it) wh) as [a|e]; simpl;
      [|eexists; reflexivity].
    destruct (Qltb a q); simpl; [eexists; reflexivity|exact IH].
Qed.

(** ** Outcomes of [validate] *)

Lemma bind_ok {A B} (m : M A) (k : A -> M B) w a w' :
  m w = (Ok a, w') -> bind m k w = k a w'.
Proof. unfold bind. now intros ->. Qed.

Lemma bind_raise {A B} (m : M A) (k : A -> M B) w e w' :
  m w = (Raise e, w') -> bind m k w = (Raise e, w').
Proof. unfold bind. now intros ->. Qed.

(** Splits on the outcome of a check that leaves the world alone. *)
Ltac split_check m w Hworld E1 :=
  let r := fresh "r" in
  let w1 := fresh "w" in
  let R := fresh "R" in
  destruct (m w) as [r w1] eqn:E1;
  pose proof (Hworld w) as R; rewrite E1 in R; simpl in R; subst w1;
  destruct r as [[]|?e].

Lemma short_row_survives_totals E d :
  Forall (fun it => 0 < flt (Item.qty it)) (items d) ->
  Exists (short_of_stock E) (items d) ->
  Exists (fun it => short_of_stock E it /\ ~ flt (Item.qty it) == 0)
         (items (calculate_totals d)).
Proof.
  intros Hpos Hex.
  destruct (calculate_totals_fields d) as (F1 & _). cbv zeta in F1.
  rewrite F1. clear F1.
  apply List.Exists_exists in Hex. destruct Hex as (it & Hin & Hshort).
  apply List.Exists_exists.
  exists (Item.set_amount it (amount_of it)). split.
  - apply in_map_iff. exists it. split; [reflexivity|exact Hin].
  - split.
    + exact Hshort.
    + simpl. rewrite List.Forall_forall in Hpos. specialize (Hpos it Hin).
      intros Hz. rewrite Hz in Hpos. exact (Qlt_irrefl 0 Hpos).
Qed.

(** A document with a row short of stock does not pass [validate]; the
    ledger is as it was. *)
Lemma validate_fails_short_of_stock E w :
  Exists (short_of_stock E) (items (doc w)) ->
  exists e w',
    validate E w = (Raise e, w')
    /\ ledger w' = ledger w
    /\ (stock_reads_ok E -> exc_kind e = ValidationError).
Proof.
  intros Hex. unfold validate.
  split_check validate_required_fields w validate_required_fields_world E1.
  2:{ rewrite (bind_raise _ _ _ _ _ E1). eexists _, _.
      repeat split. intros _.
      exact (validate_required_fields_kind _ _ _ E1). }
  rewrite (bind_ok _ _ _ _ _ E1).
  split_check (validate_dates E) w (validate_dates_world E) E2.
  2:{ rewrite (bind_raise _ _ _ _ _ E2). eexists _, _.
      repeat split. intros _. exact (validate_dates_kind _ _ _ _ E2). }
  rewrite (bind_ok _ _ _ _ _ E2).
  assert (forall w0, snd (validate_quantities w0) = w0) as Hq
      by (intros w0; apply validate_quantities_loop_world).
  split_check validate_quantities w Hq E3.
  2:{ rewrite (bind_raise _ _ _ _ _ E3). eexists _, _.
      repeat split. intros _.
      exact (validate_quantities_loop_kind _ _ _ _ E3). }
  rewrite (bind_ok _ _ _ _ _ E3).
  apply validate_quantities_loop_passes in E3.
  pose proof (short_row_survives_totals E (doc w) E3 Hex) as Hbad.
  rewrite (bind_ok (modify_doc calculate_totals) _ w tt
             (set_doc w (calculate_totals (doc w))) eq_refl).
  destruct (validate_against_stock_loop_fails E _
              (set_doc w (calculate_totals (doc w))) Hbad) as [e He].
  exists e, (set_doc w (calculate_totals (doc w))).
  split; [exact He|]. split; [reflexivity|].
  intros Hs. exact (validate_against_stock_loop_kind E _ _ _ _ Hs He).
Qed.

(** A document that passes the first two checks and has a row whose
    quantity is not positive fails in [validate_quantities], untouched. *)
Lemma validate_fails_in_quantities E w :
  validate_required_fields w = (Ok tt, w) ->
  validate_dates E w = (Ok tt, w) ->
  Exists (fun it => flt (Item.qty it) <= 0) (items (doc w)) ->
  exists e,
    validate E w = (Raise e, w)
    /\ validate_quantities w = (Raise e, w)
    /\ exc_kind e = ValidationError.
Proof.
  intros E1 E2 Hex. unfold validate.
  rewrite (bind_ok _ _ _ _ _ E1), (bind_ok _ _ _ _ _ E2).
  destruct (validate_quantities_loop_fails _ w Hex) as (e & He & Hk).
  exists e. split; [|split; [exact He|exact Hk]].
  apply bind_raise. exact He.
Qed.

(** ** The sequencer *)

Lemma run_callbacks_invoked h cbs st r st' :
  run_callbacks h cbs st = (r, st') ->
  status st' = status st
  /\ exists k, invoked st' = invoked st ++ repeat h k
               /\ (forall e, r = Raise e -> (1 <= k)%nat).
Proof.
  revert st. induction cbs as [|[h' cb] rest IH]; intros st; simpl.
  - intros [= <- <-]. split; [reflexivity|]. exists 0%nat. split.
    + simpl. now rewrite app_nil_r.
    + intros e [=].
  - destruct (decide (h = h')) as [_|_]; [|apply IH].
    destruct (cb (status st) (wld st)) as [[[]|e] w'].
    + intros Hrun. apply IH in Hrun. simpl in Hrun.
      destruct Hrun as (Hs & k & Hi & Hk). split; [exact Hs|].
      exists (S k). split.
      * rewrite Hi, <- app_assoc. reflexivity.
      * intros; lia.
    + intros [= <- <-]. simpl. split; [reflexivity|].
      exists 1%nat. split; [reflexivity|]. intros; lia.
Qed.

Lemma run_steps_app target cbs pre rest st :
  run_steps target cbs (pre ++ rest) st
  = match run_steps target cbs pre st with
    | (Ok _, st1) => run_steps target cbs rest st1
    | (Raise e, st1) => (Raise e, st1)
    end.
Proof.
  revert st. induction pre as [|[h|] pre IH]; intros st; simpl.
  - reflexivity.
  - destruct (run_callbacks h cbs st) as [[[]|e] st0]; [apply IH|reflexivity].
  - apply IH.
Qed.

(** Whatever the outcome, only hook points of the sequence are invoked. *)
Lemma run_steps_invoked target cbs steps st r st' :
  run_steps target cbs steps st = (r, st') ->
  exists ext, invoked st' = invoked st ++ ext
              /\ forall x, In x ext -> In (Hook x) steps.
Proof.
  revert st. induction steps as [|[h|] rest IH]; intros st; simpl.
  - intros [= <- <-]. exists []. split; [now rewrite app_nil_r|intros x []].
  - destruct (run_callbacks h cbs st) as [r0 st0] eqn:Hcb.
    apply run_callbacks_invoked in Hcb. destruct Hcb as (_ & k & Hi & _).
    assert (forall x, In x (repeat h k) -> In (Hook x) (Hook h :: rest)) as Hrep.
    { intros x Hx. apply repeat_spec in Hx. subst x. now left. }
    destruct r0 as [[]|e].
    + intros Hrun. apply IH in Hrun. destruct Hrun as (ext & Hi' & Hext).
      exists (repeat h k ++ ext). split.
      * rewrite Hi', Hi, <- app_assoc. reflexivity.
      * intros x Hx. apply in_app_or in Hx. destruct Hx as [Hx|Hx];
          [now apply Hrep|right; now apply Hext].
    + intros [= <- <-]. exists (repeat h k). split; [exact Hi|exact Hrep].
  - intros Hrun. apply IH in Hrun. simpl in Hrun.
    destruct Hrun as (ext & Hi & Hext). exists ext. split; [exact Hi|].
    intros x Hx. right. now apply Hext.
Qed.

(** A failing run stops at a hook point [h] of the sequence: what was
    invoked belongs to the steps up to [h], and [h] is the last. *)
Lemma run_steps_failure target cbs steps st e st' :
  run_steps target cbs steps st = (Raise e, st') ->
  exists pre h post ext,
    steps = pre ++ Hook h :: post
    /\ invoked st' = invoked st ++ ext ++ [h]
    /\ forall x, In x ext -> In (Hook x) (pre ++ [Hook h]).
Proof.
  revert st. induction steps as [|[h0|] rest IH]; intros st; simpl.
  - intros [=].
  - destruct (run_callbacks h0 cbs st) as [r0 st0] eqn:Hcb.
    apply run_callbacks_invoked in Hcb. destruct Hcb as (_ & k & Hi & Hk).
    destruct r0 as [[]|e0].
    + intros Hrun. apply IH in Hrun.
      destruct Hrun as (pre & h & post & ext & -> & Hi' & Hext).
      exists (Hook h0 :: pre), h, post, (repeat h0 k ++ ext).
      split; [reflexivity|]. split.
      * rewrite Hi', Hi, <- !app_assoc. reflexivity.
      * intros x Hx. apply in_app_or in Hx. destruct Hx as [Hx|Hx].
        -- apply repeat_spec in Hx. subst x. now left.
        -- right. now apply Hext.
    + intros [= <- <-]. specialize (Hk e0 eq_refl).
      destruct k as [|k]; [lia|].
      exists [], h0, rest, (repeat h0 k).
      split; [reflexivity|]. split.
      * rewrite Hi. f_equal. change [h0] with (repeat h0 1).
        rewrite <- repeat_app. f_equal. lia.
      * intros x Hx. apply repeat_spec in Hx. subst x. now left.
  - intros Hrun. apply IH in Hrun. simpl in Hrun.
    destruct Hrun as (pre & h & post & ext & -> & Hi & Hext).
    exists (Persist :: pre), h, post, ext.
    split; [reflexivity|]. split; [exact Hi|].
    intros x Hx. right. now apply Hext.
Qed.

Lemma hook_sequence_NoDup t : List.NoDup (hook_sequence t).
Proof.
  destruct t; simpl;
    repeat (constructor; [simpl; intuition discriminate|]); constructor.
Qed.

(** In a sequence without repetition, what comes after a step is not
    among the steps up to it. *)
Lemma later_steps_are_new (pre post : list step) s x :
  List.NoDup (pre ++ s :: post) -> In x post -> ~ In x (pre ++ [s]).
Proof.
  intros Hnd Hpost Hpre.
  replace (pre ++ s :: post) with ((pre ++ [s]) ++ post) in Hnd
    by (rewrite <- app_assoc; reflexivity).
  revert Hnd Hpre. generalize (pre ++ [s]) as l. intros l.
  induction l as [|a l IH]; simpl; intros Hnd Hin; [contradiction|].
  inversion Hnd as [|? ? Hnotin Hnd']; subst.
  destruct Hin as [->|Hin].
  - apply Hnotin. apply in_or_app. now right.
  - exact (IH Hnd' Hin).
Qed.

Lemma after_persist_incl steps x : In x (after_persist steps) -> In x steps.
Proof.
  induction steps as [|[h|] rest IH]; simpl; intros Hx.
  - contradiction.
  - right. now apply IH.
  - now right.
Qed.

Lemma after_persist_split (pre post : list step) h :
  ~ In Persist pre ->
  after_persist (pre ++ Hook h :: post) = after_persist post.
Proof.
  induction pre as [|[h0|] pre IH]; simpl; intros Hn.
  - reflexivity.
  - apply IH. intros Hin. apply Hn. now right.
  - exfalso. apply Hn. now left.
Qed.

(** What the template registered for [validate] is the method itself. *)
Lemma run_callbacks_validate E H old_name new_name merge st :
  run_callbacks hp_validate
                (controller_callbacks E H old_name new_name merge) st
  = match validate E (wld st) with
    | (Ok _, w') =>
        (Ok tt, mkSeq (status st) (invoked st ++ [hp_validate]) w')
    | (Raise e, w') =>
        (Raise e, mkSeq (status st) (invoked st ++ [hp_validate]) w')
    end.
Proof.
  unfold controller_callbacks. simpl.
  destruct (validate E (wld st)) as [[[]|e] w']; reflexivity.
Qed.

(** When [validate] raises, the transition that reached it ends there, with
    the status it started from. *)
Lemma failing_validate_aborts_transition
      E H old_name new_name merge t pre post st st1 e w' :
  hook_sequence t = pre ++ Hook hp_validate :: post ->
  run_steps (terminal_status t (status st))
            (controller_callbacks E H old_name new_name merge) pre st
  = (Ok tt, st1) ->
  validate E (wld st1) = (Raise e, w') ->
  run_transition t (controller_callbacks E H old_name new_name merge) st
  = (Raise e, mkSeq (status st) (invoked st1 ++ [hp_validate]) w').
Proof.
  intros Hseq Hpre Hval.
  unfold run_transition. rewrite Hseq, run_steps_app, Hpre.
  cbn [run_steps]. rewrite run_callbacks_validate, Hval. reflexivity.
Qed.

(** ** The order of the checks in [validate] *)

(** Peels one check off a run over a closed input. *)
Ltac peel_check Hr :=
  let Hc := fresh "Hc" in
  let Hr' := fresh "Hr" in
  inversion Hr as [| ? ? ? ? ? Hc Hr' | ? ? ? ? ? Hc]; subst; clear Hr;
  vm_compute in Hc; try discriminate Hc;
  injection Hc as <-.

(** C2, as amended. [validate] runs required-field presence, date ordering,
    quantity and rate sanity, the derived totals and then the stock
    availability check, in that order, and the first check that fails ends
    the run: its outcome is the outcome of [validate], and of the whole
    transition that called it. *)
Theorem validate_runs_checks_in_order :
  forall E w,
    runs_to (validate_checks E) w (validate E w)
    /\ forall H old_name new_name merge t pre post st st1 e w',
         hook_sequence t = pre ++ Hook hp_validate :: post ->
         run_steps (terminal_status t (status st))
                   (controller_callbacks E H old_name new_name merge) pre st
         = (Ok tt, st1) ->
         wld st1 = w ->
         validate E w = (Raise e, w') ->
         run_transition t (controller_callbacks E H old_name new_name merge) st
         = (Raise e, mkSeq (status st) (invoked st1 ++ [hp_validate]) w').
Proof.
  intros E w. split.
  2:{ intros H old_name new_name merge t pre post st st1 e w'
             Hseq Hpre <- Hval.
      exact (failing_validate_aborts_transition _ _ _ _ _ _ _ _ _ _ _ _
               Hseq Hpre Hval). }
  unfold validate, validate_checks, bind.
  destruct (validate_required_fields w) as [[[]|e1] w1] eqn:E1;
    [eapply runs_ok; [exact E1|] | eapply runs_fail; exact E1].
  destruct (validate_dates E w1) as [[[]|e2] w2] eqn:E2;
    [eapply runs_ok; [exact E2|] | eapply runs_fail; exact E2].
  destruct (validate_quantities w2) as [[[]|e3] w3] eqn:E3;
    [eapply runs_ok; [exact E3|] | eapply runs_fail; exact E3].
  destruct (modify_doc calculate_totals w3) as [[[]|e4] w4] eqn:E4;
    [eapply runs_ok; [exact E4|] | eapply runs_fail; exact E4].
  destruct (validate_against_stock E w4) as [[[]|e5] w5] eqn:E5;
    [eapply runs_ok; [exact E5|constructor] | eapply runs_fail; exact E5].
Qed.

(** C2, as stated, fails: on a document that is short of stock the run of
    [validate] is not a run of the checks with the availability check before
    the totals (the totals are already written when the stock check fails). *)
Lemma validate_not_in_specified_order :
  ~ runs_to (validate_checks_as_specified ex_env) short_stock_world
            (validate ex_env short_stock_world).
Proof.
  intros Hr.
  remember (validate ex_env short_stock_world) as r eqn:Hv.
  vm_compute in Hv. subst r.
  unfold validate_checks_as_specified in Hr.
  peel_check Hr. peel_check Hr0. peel_check Hr. peel_check Hr0.
Qed.

(** ** Transitions that fail in [validate] *)

(** C3, as amended. In a transition whose sequence contains [validate], once
    the hook points before it have succeeded on a document that passes the
    required-field and date checks and has a row of quantity zero, the
    transition fails with the validation error raised by
    [validate_quantities]; the status is the one it started from, the
    document is as [validate] found it, and no hook point later than
    [validate] is invoked. *)
Theorem zero_quantity_aborts_transition :
  forall E H old_name new_name merge t pre post st st1,
    hook_sequence t = pre ++ Hook hp_validate :: post ->
    run_steps (terminal_status t (status st))
              (controller_callbacks E H old_name new_name merge) pre st
    = (Ok tt, st1) ->
    validate_required_fields (wld st1) = (Ok tt, wld st1) ->
    validate_dates E (wld st1) = (Ok tt, wld st1) ->
    Exists (fun it => flt (Item.qty it) == 0) (items (doc (wld st1))) ->
    exists e ext,
      run_transition t (controller_callbacks E H old_name new_name merge) st
      = (Raise e,
         mkSeq (status st) (invoked st ++ ext ++ [hp_validate]) (wld st1))
      /\ validate_quantities (wld st1) = (Raise e, wld st1)
      /\ exc_kind e = ValidationError
      /\ (forall x, In x ext -> In (Hook x) pre)
      /\ (forall x, In (Hook x) post -> ~ In x (ext ++ [hp_validate])).
Proof.
  intros E H old_name new_name merge t pre post st st1
         Hseq Hpre Hreq Hdates Hzero.
  assert (Exists (fun it => flt (Item.qty it) <= 0) (items (doc (wld st1))))
    as Hle.
  { eapply List.Exists_impl; [|exact Hzero].
    intros it Hz. simpl in Hz. rewrite Hz. apply Qle_refl. }
  destruct (validate_fails_in_quantities E (wld st1) Hreq Hdates Hle)
    as (e & Hval & Hqty & Hkind).
  destruct (run_steps_invoked _ _ _ _ _ _ Hpre) as (ext & Hinv & Hext).
  exists e, ext.
  split; [|split; [exact Hqty|split; [exact Hkind|split; [exact Hext|]]]].
  - rewrite (failing_validate_aborts_transition _ _ _ _ _ _ _ _ _ _ _ _
               Hseq Hpre Hval).
    rewrite Hinv, <- app_assoc. reflexivity.
  - intros x Hpost Hin.
    pose proof (hook_sequence_NoDup t) as Hnd. rewrite Hseq in Hnd.
    apply (later_steps_are_new _ _ _ _ Hnd Hpost).
    apply in_app_or in Hin. apply in_or_app. destruct Hin as [Hin|Hin].
    + left. now apply Hext.
    + right. simpl in Hin. destruct Hin as [<-|[]]. now left.
Qed.

(** The amended C3 at work: saving the document with a customer and a row
    of quantity zero. *)
Lemma zero_quantity_aborts_save :
  exists e ext,
    run_transition Save (controller_callbacks ex_env noop_helpers "" "" false)
                   (draft_state zero_qty_doc)
    = (Raise e, mkSeq Draft ([] ++ ext ++ [hp_validate])
                      (mkWorld zero_qty_doc []))
    /\ validate_quantities (mkWorld zero_qty_doc [])
       = (Raise e, mkWorld zero_qty_doc [])
    /\ exc_kind e = ValidationError
    /\ (forall x, In x ext -> In (Hook x) [])
    /\ (forall x,
          In (Hook x) [Hook hp_before_save; Persist; Hook hp_on_update] ->
          ~ In x (ext ++ [hp_validate])).
Proof.
  apply (zero_quantity_aborts_transition ex_env noop_helpers "" "" false Save
           [] [Hook hp_before_save; Persist; Hook hp_on_update]
           (draft_state zero_qty_doc) (draft_state zero_qty_doc)).
  - reflexivity.
  - reflexivity.
  - reflexivity.
  - reflexivity.
  - constructor. simpl. reflexivity.
Defined.

(** C3, as stated, fails: saving a document that has a row of quantity zero
    but no customer fails in [validate_required_fields], with another error
    than the one [validate_quantities] would raise. *)
Lemma zero_quantity_without_customer :
  Exists (fun it => Item.qty it = Some 0) (items zero_qty_no_customer_doc)
  /\ run_transition Save
       (controller_callbacks ex_env noop_helpers "" "" false)
       (draft_state zero_qty_no_customer_doc)
     = (Raise (mkExc ValidationError "Customer is required"),
        mkSeq Draft [hp_validate] (mkWorld zero_qty_no_customer_doc []))
  /\ validate_required_fields (mkWorld zero_qty_no_customer_doc [])
     = (Raise (mkExc ValidationError "Customer is required"),
        mkWorld zero_qty_no_customer_doc [])
  /\ validate_quantities (mkWorld zero_qty_no_customer_doc [])
     = (Raise (mkExc ValidationError
                     "Quantity must be greater than 0 for item ITEM-A"),
        mkWorld zero_qty_no_customer_doc []).
Proof.
  split; [constructor; reflexivity|].
  split; [vm_compute; reflexivity|].
  split; vm_compute; reflexivity.
Qed.

(** C5, as amended. A document with a row that asks, for its item and
    warehouse, more than the availability collaborator reports does not pass
    [validate]: in a transition whose sequence contains [validate], once the
    hook points before it have succeeded, the transition fails there; the
    status is the one it started from, [validate] has posted nothing to the
    ledger, and no hook point later than [validate] is invoked. When the
    collaborator itself answers every question, the error is a validation
    error raised through [frappe.throw]. *)
Theorem short_stock_aborts_transition :
  forall E H old_name new_name merge t pre post st st1,
    hook_sequence t = pre ++ Hook hp_validate :: post ->
    run_steps (terminal_status t (status st))
              (controller_callbacks E H old_name new_name merge) pre st
    = (Ok tt, st1) ->
    Exists (short_of_stock E) (items (doc (wld st1))) ->
    exists e w' ext,
      run_transition t (controller_callbacks E H old_name new_name merge) st
      = (Raise e, mkSeq (status st) (invoked st ++ ext ++ [hp_validate]) w')
      /\ validate E (wld st1) = (Raise e, w')
      /\ ledger w' = ledger (wld st1)
      /\ (forall x, In x ext -> In (Hook x) pre)
      /\ (forall x, In (Hook x) post -> ~ In x (ext ++ [hp_validate]))
      /\ (stock_reads_ok E -> exc_kind e = ValidationError).
Proof.
  intros E H old_name new_name merge t pre post st st1 Hseq Hpre Hshort.
  destruct (validate_fails_short_of_stock E (wld st1) Hshort)
    as (e & w' & Hval & Hledger & Hkind).
  destruct (run_steps_invoked _ _ _ _ _ _ Hpre) as (ext & Hinv & Hext).
  exists e, w', ext.
  split; [|split; [exact Hval|split; [exact Hledger|split; [exact Hext|]]]].
  - rewrite (failing_validate_aborts_transition _ _ _ _ _ _ _ _ _ _ _ _
               Hseq Hpre Hval).
    rewrite Hinv, <- app_assoc. reflexivity.
  - split; [|exact Hkind].
    intros x Hpost Hin.
    pose proof (hook_sequence_NoDup t) as Hnd. rewrite Hseq in Hnd.
    apply (later_steps_are_new _ _ _ _ Hnd Hpost).
    apply in_app_or in Hin. apply in_or_app. destruct Hin as [Hin|Hin].
    + left. now apply Hext.
    + right. simpl in Hin. destruct Hin as [<-|[]]. now left.
Qed.

(** The amended C5 at work: saving the document that asks for five units
    where three are available. *)
Lemma short_stock_aborts_save :
  exists e w' ext,
    run_transition Save (controller_callbacks ex_env noop_helpers "" "" false)
                   (draft_state short_stock_doc)
    = (Raise e, mkSeq Draft ([] ++ ext ++ [hp_validate]) w')
    /\ validate ex_env (mkWorld short_stock_doc []) = (Raise e, w')
    /\ ledger w' = []
    /\ (forall x, In x ext -> In (Hook x) [])
    /\ (forall x,
          In (Hook x) [Hook hp_before_save; Persist; Hook hp_on_update] ->
          ~ In x (ext ++ [hp_validate]))
    /\ (stock_reads_ok ex_env -> exc_kind e = ValidationError).
Proof.
  apply (short_stock_aborts_transition ex_env noop_helpers "" "" false Save
           [] [Hook hp_before_save; Persist; Hook hp_on_update]
           (draft_state short_stock_doc) (draft_state short_stock_doc)).
  - reflexivity.
  - reflexivity.
  - constructor. exists "Stores"%string, 5, 3.
    repeat split; try reflexivity. discriminate.
Defined.

(** C5, as stated, fails on the class of the error: for the document that
    asks for five units where three are available, the one stock check of
    the controller raises the validation error of [frappe.throw], not an
    external-dependency error; and so does the submit transition when
    [validate] runs before it. (With the hook points of the specification's
    table alone, and methods without a body that do nothing, the stock check
    is not reached at all: submit succeeds and posts to the ledger.) *)
Lemma short_stock_error_is_validation_error :
  Exists (short_of_stock ex_env) (items short_stock_doc)
  /\ validate_against_stock ex_env (mkWorld short_stock_doc [])
     = (Raise (mkExc ValidationError
                "Insufficient stock for item ITEM-A. Available: 3, Required: 5"),
        mkWorld short_stock_doc [])
  /\ (exists st',
        run_transition Submit
          (controller_callbacks ex_env noop_helpers "" "" false)
          (draft_state short_stock_doc)
        = (Raise (mkExc ValidationError
                   "Insufficient stock for item ITEM-A. Available: 3, Required: 5"),
           st'))
  /\ (exists st',
        run_steps Submitted
          (controller_callbacks ex_env noop_helpers "" "" false)
          (canonical_order Submit) (draft_state short_stock_doc)
        = (Ok tt, st')
        /\ length (ledger (wld st')) = 1%nat)
  /\ ValidationError <> ExternalDependencyError.
Proof.
  split.
  - constructor. exists "Stores"%string, 5, 3.
    repeat split; try reflexivity. discriminate.
  - split; [vm_compute; reflexivity|].
    split; [eexists; vm_compute; reflexivity|].
    split; [|discriminate].
    eexists. split; [vm_compute; reflexivity|reflexivity].
Qed.

(** ** Failure of a transition *)

(** C7, as amended. Whatever the class of the error a transition fails
    with, the status is the one the transition started from, and the run
    stopped at the hook point [h] that raised it: what was invoked belongs
    to the steps up to [h], no hook point after [h] was invoked, and when
    [h] comes before the persistence step no hook after that step was
    invoked. *)
Theorem failed_transition_keeps_status :
  forall t cbs st e st',
    run_transition t cbs st = (Raise e, st') ->
    status st' = status st
    /\ exists pre h post ext,
         hook_sequence t = pre ++ Hook h :: post
         /\ invoked st' = invoked st ++ ext ++ [h]
         /\ (forall x, In x ext -> In (Hook x) (pre ++ [Hook h]))
         /\ (forall x, In (Hook x) post -> ~ In x (ext ++ [h]))
         /\ (In Persist post ->
             forall x, In (Hook x) (after_persist (hook_sequence t)) ->
                       ~ In x (ext ++ [h])).
Proof.
  intros t cbs st e st'. unfold run_transition.
  destruct (run_steps _ cbs (hook_sequence t) st) as [[[]|e0] st0] eqn:Hrun;
    [intros [=]|].
  intros [= <- <-]. split; [reflexivity|]. cbn [invoked].
  destruct (run_steps_failure _ _ _ _ _ _ Hrun)
    as (pre & h & post & ext & Hseq & Hinv & Hext).
  pose proof (hook_sequence_NoDup t) as Hnd. rewrite Hseq in Hnd.
  assert (forall x, In (Hook x) post -> ~ In x (ext ++ [h])) as Hlater.
  { intros x Hpost Hin.
    apply (later_steps_are_new _ _ _ _ Hnd Hpost).
    apply in_app_or in Hin. destruct Hin as [Hin|Hin].
    - now apply Hext.
    - simpl in Hin. destruct Hin as [<-|[]]. apply in_or_app. right. now left. }
  exists pre, h, post, ext.
  split; [exact Hseq|]. split; [exact Hinv|]. split; [exact Hext|].
  split; [exact Hlater|].
  intros Hpersist x Hafter. apply Hlater.
  rewrite Hseq in Hafter. rewrite after_persist_split in Hafter.
  - now apply after_persist_incl.
  - intros Hin. apply (later_steps_are_new _ _ _ _ Hnd Hpersist).
    apply in_or_app. now left.
Qed.

(** The amended C7 at work: saving the document with a row of quantity
    zero. *)
Lemma failed_save_keeps_status :
  status (mkSeq Draft [hp_validate] (mkWorld zero_qty_doc [])) = Draft
  /\ exists pre h post ext,
       hook_sequence Save = pre ++ Hook h :: post
       /\ [hp_validate] = [] ++ ext ++ [h]
       /\ (forall x, In x ext -> In (Hook x) (pre ++ [Hook h]))
       /\ (forall x, In (Hook x) post -> ~ In x (ext ++ [h]))
       /\ (In Persist post ->
           forall x, In (Hook x) (after_persist (hook_sequence Save)) ->
                     ~ In x (ext ++ [h])).
Proof.
  apply (failed_transition_keeps_status Save
           (controller_callbacks ex_env noop_helpers "" "" false)
           (draft_state zero_qty_doc)
           (mkExc ValidationError
                  "Quantity must be greater than 0 for item ITEM-A")
           (mkSeq Draft [hp_validate] (mkWorld zero_qty_doc []))).
  vm_compute. reflexivity.
Defined.

(** C7, as stated, fails when the error is raised after the persistence
    step: with a ledger that is out of reach, submitting a valid document
    fails with an external-dependency error raised in [on_submit], a hook
    that comes after the persistence step and has run. *)
Lemma after_hook_has_run_on_failure :
  exists e st',
    run_transition Submit
      (controller_callbacks ledger_down_env noop_helpers "" "" false)
      (draft_state in_stock_doc)
    = (Raise e, st')
    /\ exc_kind e = ExternalDependencyError
    /\ status st' = Draft
    /\ invoked st' = [hp_validate; hp_before_submit; hp_on_submit]
    /\ In (Hook hp_on_submit) (after_persist (hook_sequence Submit)).
Proof.
  eexists _, _. split; [vm_compute; reflexivity|].
  split; [reflexivity|]. split; [reflexivity|]. split; [reflexivity|].
  simpl. now left.
Qed.

(** ** The endpoint [get_customer_info] *)

(** C8. [get_customer_info] raises an exception, which carries a message,
    exactly when the persistence collaborator has no customer under the
    given identifier; otherwise it answers with the dictionary of the
    customer's name, customer_name, customer_type, credit_limit, territory
    and customer_group. *)
Theorem get_customer_info_spec :
  forall (db : gmap string Customer.t) (customer : string),
    ((exists e, get_customer_info db customer = Raise e)
     <-> db !! customer = None)
    /\ (db !! customer = None ->
        get_customer_info db customer
        = Raise (mkExc ValidationError
                       ("Customer " ++ customer ++ " not found")%string))
    /\ (forall c, db !! customer = Some c ->
          get_customer_info db customer
          = Ok [("name"%string, JStr (Customer.name c));
                ("customer_name"%string, json_str (Customer.customer_name c));
                ("customer_type"%string, json_str (Customer.customer_type c));
                ("credit_limit"%string, json_num (Customer.credit_limit c));
                ("territory"%string, json_str (Customer.territory c));
                ("customer_group"%string,
                 json_str (Customer.customer_group c))]).
Proof.
  intros db customer.
  unfold get_customer_info, db_exists, db_get_doc.
  destruct (db !! customer) as [c|] eqn:Hlook.
  - rewrite bool_decide_eq_true_2 by (now exists c). simpl.
    split; [|split].
    + split; [intros [e [=]]|intros [=]].
    + intros [=].
    + intros c' [= <-]. reflexivity.
  - rewrite bool_decide_eq_false_2 by (intros [c [=]]). simpl.
    split; [|split].
    + split; [reflexivity|intros _; eexists; reflexivity].
    + reflexivity.
    + intros c [=].
Qed.

(** ** Submit, then cancel *)

Lemma run_callbacks_method E H old_name new_name merge h st :
  run_callbacks h (controller_callbacks E H old_name new_name merge) st
  = match method_of E H old_name new_name merge h with
    | None => (Ok tt, st)
    | Some m =>
        match m (wld st) with
        | (Ok _, w') => (Ok tt, mkSeq (status st) (invoked st ++ [h]) w')
        | (Raise e, w') => (Raise e, mkSeq (status st) (invoked st ++ [h]) w')
        end
    end.
Proof.
  destruct h; unfold controller_callbacks; simpl;
    try reflexivity;
    match goal with
    | |- context [match ?m (wld st) with _ => _ end] =>
        destruct (m (wld st)) as [[[]|?] ?]; reflexivity
    end.
Qed.

Lemma quiet_ret {A} (a : A) : quiet (ret a).
Proof. intros w r w' [= <- <-]. split; reflexivity. Qed.

Lemma quiet_bind {A B} (m : M A) (k : A -> M B) :
  quiet m -> (forall a, quiet (k a)) -> quiet (bind m k).
Proof.
  intros Hm Hk w r w'. unfold bind.
  destruct (m w) as [[a|e] w1] eqn:Em; destruct (Hm _ _ _ Em) as [Hl Hn].
  - intros Ek. destruct (Hk a _ _ _ Ek) as [Hl' Hn'].
    split; congruence.
  - intros [= <- <-]. split; assumption.
Qed.

Lemma quiet_of_world (m : M unit) :
  (forall w, snd (m w) = w) -> quiet m.
Proof.
  intros Hw w r w' Em. specialize (Hw w). rewrite Em in Hw. simpl in Hw.
  subst w'. split; reflexivity.
Qed.

Lemma calculate_totals_name d : name (calculate_totals d) = name d.
Proof.
  unfold calculate_totals, calculate_taxes.
  destruct (items_loop (items d) 0 0) as [[its tq] ta]. simpl.
  destruct (taxes_loop _ _ 0) as [txs acc]. reflexivity.
Qed.

Lemma validate_quiet E : quiet (validate E).
Proof.
  unfold validate.
  apply quiet_bind;
    [apply quiet_of_world, validate_required_fields_world|intros _].
  apply quiet_bind; [apply quiet_of_world, validate_dates_world|intros _].
  apply quiet_bind.
  { apply quiet_of_world. intros w. apply validate_quantities_loop_world. }
  intros _. apply quiet_bind.
  { intros w r w' [= <- <-]. simpl. split; [reflexivity|].
    apply calculate_totals_name. }
  intros _. apply quiet_of_world. intros w.
  apply validate_against_stock_loop_world.
Qed.

(** A successful [on_submit] leaves exactly one more call in the ledger: the
    entries of [make_gl_entries], not reversed. *)
Lemma on_submit_posts E H w w' :
  ledger_neutral E H ->
  on_submit E H w = (Ok tt, w') ->
  ledger w'
  = ledger w ++ [mkCall (name (doc w))
                        (map (get_gl_dict H (doc w)) (gl_args (doc w)))
                        false]
  /\ name (doc w') = name (doc w).
Proof.
  intros Hn. unfold on_submit.
  unfold bind at 1. unfold make_gl_entries at 1.
  unfold bind at 1. unfold get_doc_self at 1. unfold post_gl_entries.
  destruct (ledger_refuses E _ false) as [e|]; [intros [=]|].
  intros Hrest.
  assert (quiet (update_stock_ledger >> create_related_documents H
                 >> update_status H)) as Hq.
  { apply quiet_bind.
    - unfold update_stock_ledger. apply quiet_bind.
      + intros w0 r0 w0' [= <- <-]. split; reflexivity.
      + intros d. apply quiet_ret.
    - intros _. apply quiet_bind.
      + apply (ln_create_related_documents _ _ Hn).
      + intros _. apply (ln_update_status _ _ Hn). }
  destruct (Hq _ _ _ Hrest) as [Hl Hname]. simpl in Hl, Hname.
  split; assumption.
Qed.

Lemma sign_inverted_reversal e : sign_inverted e (reversal_of e).
Proof.
  unfold sign_inverted, reversal_of. simpl.
  repeat split; try reflexivity.
  - destruct (gl_debit e); simpl; ring.
  - destruct (gl_credit e); simpl; ring.
Qed.

(** On a ledger that held nothing for the document before its submit posted
    [posted], the entries created at submit time are [posted]. *)
Lemma submitted_gl_entries_fresh w before posted :
  ledger w = before ++ [mkCall (name (doc w)) posted false] ->
  Forall (fun c => lc_voucher c <> name (doc w)) before ->
  submitted_gl_entries w = (Ok posted, w).
Proof.
  intros Hl Hfresh. unfold submitted_gl_entries. rewrite Hl.
  rewrite List.filter_app. simpl. rewrite String.eqb_refl. simpl.
  replace (List.filter _ before) with (@nil ledger_call).
  - simpl. now rewrite app_nil_r.
  - symmetry. clear Hl.
    induction Hfresh as [|c rest Hc _ IH]; simpl; [reflexivity|].
    apply String.eqb_neq in Hc. rewrite Hc. simpl. exact IH.
Qed.

(** [on_cancel] hands the submitted entries back to the ledger, marked as a
    reversal. *)
Lemma on_cancel_posts_reversal E H w posted :
  ledger_neutral E H ->
  cancel_allowed H ->
  get_gl_entries H = submitted_gl_entries ->
  (forall entries, ledger_refuses E entries true = None) ->
  submitted_gl_entries w = (Ok posted, w) ->
  exists w',
    on_cancel E H w = (Ok tt, w')
    /\ ledger w' = ledger w ++ [mkCall (name (doc w)) posted true].
Proof.
  intros Hn Ha Hget Hacc Hsub. unfold on_cancel.
  unfold bind at 1. unfold cancel_gl_entries. unfold bind at 1.
  rewrite Hget, Hsub. unfold post_gl_entries. rewrite Hacc.
  set (w1 := mkWorld (doc w) (ledger w ++ [mkCall (name (doc w)) posted true])).
  destruct (ca_cancel_stock_ledger _ Ha w1) as [w2 H2].
  destruct (ln_cancel_stock_ledger _ _ Hn _ _ _ H2) as [Hl2 _].
  destruct (ca_cancel_related_documents _ Ha w2) as [w3 H3].
  destruct (ln_cancel_related_documents _ _ Hn _ _ _ H3) as [Hl3 _].
  exists w3. split.
  - rewrite (bind_ok _ _ _ _ _ H2). exact H3.
  - rewrite Hl3, Hl2. reflexivity.
Qed.

(** C6. Once a document has been submitted (on a ledger that held nothing
    for it), cancelling it hands the ledger exactly the entries posted at
    submit time, as a reversal: one reversal entry per entry, with the sign
    of its amounts inverted; and the status becomes Cancelled. *)
Theorem cancel_reverses_submitted_entries :
  forall E H old_name new_name merge st0 st1,
    get_gl_entries H = submitted_gl_entries ->
    ledger_neutral E H ->
    cancel_allowed H ->
    (forall entries, ledger_refuses E entries true = None) ->
    Forall (fun c => lc_voucher c <> name (doc (wld st0))) (ledger (wld st0)) ->
    run_transition Submit (controller_callbacks E H old_name new_name merge) st0
    = (Ok tt, st1) ->
    exists posted st2,
      status st1 = Submitted
      /\ ledger (wld st1)
         = ledger (wld st0) ++ [mkCall (name (doc (wld st0))) posted false]
      /\ run_transition Cancel
           (controller_callbacks E H old_name new_name merge) st1
         = (Ok tt, st2)
      /\ status st2 = Cancelled
      /\ ledger (wld st2)
         = ledger (wld st1) ++ [mkCall (name (doc (wld st0))) posted true]
      /\ recorded_entries (mkCall (name (doc (wld st0))) posted true)
         = map reversal_of posted
      /\ length (map reversal_of posted) = length posted
      /\ Forall2 sign_inverted posted (map reversal_of posted).
Proof.
  intros E H old_name new_name merge st0 st1 Hget Hn Ha Hacc Hfresh Hsubmit.
  unfold run_transition in Hsubmit.
  cbn [hook_sequence canonical_order run_steps] in Hsubmit.
  rewrite !run_callbacks_method in Hsubmit. cbn [method_of] in Hsubmit.
  destruct (validate E (wld st0)) as [[[]|e] w1] eqn:Hv; [|discriminate].
  destruct (validate_quiet E _ _ _ Hv) as [Hl1 Hn1].
  cbn [run_steps status invoked wld] in Hsubmit.
  rewrite !run_callbacks_method in Hsubmit.
  cbn [method_of status invoked wld] in Hsubmit.
  destruct (before_submit H w1) as [[[]|e] w2] eqn:Hb; [|discriminate].
  assert (quiet (before_submit H)) as Hqb.
  { apply quiet_bind; [apply (ln_check_permissions _ _ Hn)|intros _].
    apply (ln_validate_for_submit _ _ Hn). }
  destruct (Hqb _ _ _ Hb) as [Hl2 Hn2].
  cbn [run_steps status invoked wld] in Hsubmit.
  rewrite !run_callbacks_method in Hsubmit.
  cbn [method_of run_steps status invoked wld] in Hsubmit.
  rewrite !run_callbacks_method in Hsubmit.
  cbn [method_of status invoked wld] in Hsubmit.
  destruct (on_submit E H w2) as [[[]|e] w3] eqn:Ho; [|discriminate].
  injection Hsubmit as <-.
  destruct (on_submit_posts E H _ _ Hn Ho) as [Hl3 Hn3].
  rewrite Hl2, Hl1, Hn2, Hn1 in Hl3. rewrite Hn2, Hn1 in Hn3.
  set (nm := name (doc (wld st0))) in *.
  set (posted := map (get_gl_dict H (doc w2)) (gl_args (doc w2))) in *.
  (* the cancel transition, from the submitted state *)
  destruct (ca_check_if_cancel_allowed _ Ha w3) as [w4 H4].
  destruct (ln_check_if_cancel_allowed _ _ Hn _ _ _ H4) as [Hl4 Hn4].
  assert (submitted_gl_entries w4 = (Ok posted, w4)) as Hsub.
  { apply (submitted_gl_entries_fresh w4 (ledger (wld st0)) posted).
    - rewrite Hl4, Hl3, Hn4, Hn3. reflexivity.
    - rewrite Hn4, Hn3. exact Hfresh. }
  destruct (on_cancel_posts_reversal E H w4 posted Hn Ha Hget Hacc Hsub)
    as (w5 & H5 & Hl5).
  exists posted.
  exists (mkSeq Cancelled
                (((invoked st0 ++ [hp_validate]) ++ [hp_before_submit])
                   ++ [hp_on_submit] ++ [hp_before_cancel] ++ [hp_on_cancel])
                w5).
  cbn [status wld].
  split; [reflexivity|]. split; [exact Hl3|]. split.
  { unfold run_transition.
    cbn [hook_sequence canonical_order run_steps terminal_status].
    rewrite !run_callbacks_method. cbn [method_of status invoked wld].
    unfold before_cancel. rewrite H4.
    cbn [run_steps status invoked wld].
    rewrite !run_callbacks_method. cbn [method_of status invoked wld].
    rewrite H5. cbn [run_steps]. rewrite <- !app_assoc. reflexivity. }
  split; [reflexivity|]. split.
  { rewrite Hl5, Hl4, Hn4, Hn3. reflexivity. }
  split; [reflexivity|]. split; [apply length_map|].
  clear. induction posted as [|e rest IH]; constructor.
  - apply sign_inverted_reversal.
  - exact IH.
Qed.

(** C6 at work: the document that is in stock, submitted and then
    cancelled. *)
Lemma cancel_reverses_submitted_entries_example :
  exists posted st2,
    status submitted_state = Submitted
    /\ ledger (wld submitted_state)
       = ledger (wld (draft_state in_stock_doc))
         ++ [mkCall (name (doc (wld (draft_state in_stock_doc)))) posted false]
    /\ run_transition Cancel
         (controller_callbacks ex_env ledger_helpers "" "" false)
         submitted_state
       = (Ok tt, st2)
    /\ status st2 = Cancelled
    /\ ledger (wld st2)
       = ledger (wld submitted_state)
         ++ [mkCall (name (doc (wld (draft_state in_stock_doc)))) posted true]
    /\ recorded_entries
         (mkCall (name (doc (wld (draft_state in_stock_doc)))) posted true)
       = map reversal_of posted
    /\ length (map reversal_of posted) = length posted
    /\ Forall2 sign_inverted posted (map reversal_of posted).
Proof.
  apply (cancel_reverses_submitted_entries ex_env ledger_helpers "" "" false
           (draft_state in_stock_doc) submitted_state).
  - reflexivity.
  - constructor; apply quiet_ret.
  - constructor; intros w; exists w; reflexivity.
  - intros entries. reflexivity.
  - simpl. constructor.
  - vm_compute. reflexivity.
Defined.

(** * Further properties of the controller *)

(** ** [calculate_totals] as a whole *)

Lemma calculate_totals_explicit d :
  calculate_totals d
  = mkDoc (name d) (doctype d) (customer d) (from_date d) (to_date d)
          (due_date d) (posting_date d)
          (map (fun it => Item.set_amount it (amount_of it)) (items d))
          (map (tax_step (Some (snd (items_loop (items d) 0 0)))) (taxes d))
          (Some (snd (fst (items_loop (items d) 0 0))))
          (Some (snd (items_loop (items d) 0 0)))
          (Some (snd (taxes_loop (Some (snd (items_loop (items d) 0 0)))
                                 (taxes d) 0)))
          (Some (snd (items_loop (items d) 0 0)
                 + snd (taxes_loop (Some (snd (items_loop (items d) 0 0)))
                                   (taxes d) 0)))
          (debit_account d) (credit_account d).
Proof.
  unfold calculate_totals, calculate_taxes.
  pose proof (items_loop_rows (items d) 0 0) as Hr.
  destruct (items_loop (items d) 0 0) as [[its tq] ta]. simpl in Hr. subst its.
  simpl.
  pose proof (taxes_loop_rows (Some ta) (taxes d) 0) as Ht.
  destruct (taxes_loop (Some ta) (taxes d) 0) as [txs acc]. simpl in Ht.
  subst txs. reflexivity.
Qed.

(** The amounts already on the rows play no part in the loop. *)
Lemma items_loop_reamount its tq ta :
  items_loop (map (fun it => Item.set_amount it (amount_of it)) its) tq ta
  = items_loop its tq ta.
Proof.
  revert tq ta. induction its as [|it rest IH]; intros tq ta; simpl.
  - reflexivity.
  - rewrite IH. reflexivity.
Qed.

Lemma tax_step_twice ta tx : tax_step ta (tax_step ta tx) = tax_step ta tx.
Proof.
  unfold tax_step.
  destruct (String.eqb (Tax.charge_type tx) "On Net Total") eqn:Hn; simpl.
  - rewrite Hn. reflexivity.
  - destruct (String.eqb (Tax.charge_type tx) "Actual") eqn:Ha;
      rewrite Hn, ?Ha; reflexivity.
Qed.

Lemma taxes_loop_restep ta txs acc :
  taxes_loop ta (map (tax_step ta) txs) acc = taxes_loop ta txs acc.
Proof.
  revert acc. induction txs as [|tx rest IH]; intros acc; simpl.
  - reflexivity.
  - rewrite tax_step_twice, IH. reflexivity.
Qed.

(** X1. Calculating the totals of a document whose totals have just been
    calculated changes nothing. *)
Theorem calculate_totals_idempotent :
  forall d, calculate_totals (calculate_totals d) = calculate_totals d.
Proof.
  intros d.
  rewrite (calculate_totals_explicit (calculate_totals d)).
  rewrite !(calculate_totals_explicit d). cbn [name doctype customer from_date
    to_date due_date posting_date items taxes debit_account credit_account].
  rewrite !items_loop_reamount, !taxes_loop_restep.
  f_equal.
  - rewrite map_map. apply map_ext. intros it. reflexivity.
  - rewrite map_map. apply map_ext. intros tx. apply tax_step_twice.
Qed.

(** X2. [calculate_totals] writes only the amounts and the totals: the
    header fields of the document stay, no row is added or dropped, and
    every item row keeps its code, quantity, rate, warehouse and valuation
    rate. *)
Theorem calculate_totals_keeps_inputs :
  forall d,
    name (calculate_totals d) = name d
    /\ doctype (calculate_totals d) = doctype d
    /\ customer (calculate_totals d) = customer d
    /\ from_date (calculate_totals d) = from_date d
    /\ to_date (calculate_totals d) = to_date d
    /\ due_date (calculate_totals d) = due_date d
    /\ posting_date (calculate_totals d) = posting_date d
    /\ debit_account (calculate_totals d) = debit_account d
    /\ credit_account (calculate_totals d) = credit_account d
    /\ length (taxes (calculate_totals d)) = length (taxes d)
    /\ Forall2 (fun it it' =>
                  Item.item_code it' = Item.item_code it
                  /\ Item.qty it' = Item.qty it
                  /\ Item.rate it' = Item.rate it
                  /\ Item.warehouse it' = Item.warehouse it
                  /\ Item.valuation_rate it' = Item.valuation_rate it)
               (items d) (items (calculate_totals d)).
Proof.
  intros d. rewrite (calculate_totals_explicit d). simpl.
  repeat (split; [reflexivity|]). split; [apply length_map|].
  induction (items d) as [|it rest IH]; constructor.
  - repeat split; reflexivity.
  - exact IH.
Qed.

(** ** The checks, one by one *)

Lemma Qltb_ge a b : Qltb a b = false <-> b <= a.
Proof.
  unfold Qltb. rewrite negb_false_iff. apply Qle_bool_iff.
Qed.

Lemma Qle_bool_gt a b : Qle_bool a b = false <-> b < a.
Proof.
  split.
  - intros Hb. apply Qnot_le_lt. intros Hle.
    apply Qle_bool_iff in Hle. congruence.
  - intros Hlt. destruct (Qle_bool a b) eqn:Hb; [|reflexivity].
    apply Qle_bool_iff in Hb. exfalso. exact (Qlt_not_le _ _ Hlt Hb).
Qed.

Lemma validate_quantities_loop_ok_iff its w :
  validate_quantities_loop its w = (Ok tt, w) <-> Forall quantity_ok its.
Proof.
  induction its as [|it rest IH]; simpl; unfold_m.
  - split; [constructor|reflexivity].
  - destruct (Qle_bool (flt (Item.qty it)) 0) eqn:Hq; simpl.
    + split; [intros [=]|]. intros Hall. inversion Hall as [|? ? [Hpos _] _].
      apply Qle_bool_iff in Hq. exfalso. exact (Qlt_not_le _ _ Hpos Hq).
    + apply Qle_bool_gt in Hq.
      destruct (Qltb (flt (Item.rate it)) 0) eqn:Hr; simpl.
      * split; [intros [=]|]. intros Hall.
        inversion Hall as [|? ? [_ Hnn] _].
        apply Qltb_lt in Hr. exfalso. exact (Qlt_not_le _ _ Hr Hnn).
      * apply Qltb_ge in Hr. rewrite IH. split.
        -- intros Hrest. constructor; [split; assumption|exact Hrest].
        -- intros Hall. now inversion Hall.
Qed.

(** X5. [validate_quantities] passes exactly when every row has a positive
    quantity and a rate that is not negative, a missing quantity or rate
    counting as zero; pass or fail, it leaves the document and the ledger as
    they were. *)
Theorem validate_quantities_passes_iff :
  forall w,
    (validate_quantities w = (Ok tt, w)
     <-> Forall quantity_ok (items (doc w)))
    /\ snd (validate_quantities w) = w
    /\ (forall e w', validate_quantities w = (Raise e, w') ->
                     exc_kind e = ValidationError).
Proof.
  intros w. split; [|split].
  - change (validate_quantities w)
      with (validate_quantities_loop (items (doc w)) w).
    apply validate_quantities_loop_ok_iff.
  - apply validate_quantities_loop_world.
  - intros e w' Hraise.
    exact (validate_quantities_loop_kind _ _ _ _ Hraise).
Qed.

Lemma validate_quantities_loop_first its good bad rest w :
  its = good ++ bad :: rest ->
  Forall quantity_ok good ->
  ~ quantity_ok bad ->
  validate_quantities_loop its w
  = (Raise (mkExc ValidationError (quantity_error bad)), w).
Proof.
  intros -> Hgood Hbad.
  induction Hgood as [|it good' [Hpos Hnn] _ IH]; simpl; unfold_m.
  - unfold quantity_error.
    destruct (Qle_bool (flt (Item.qty bad)) 0) eqn:Hq; simpl; [reflexivity|].
    apply Qle_bool_gt in Hq.
    destruct (Qltb (flt (Item.rate bad)) 0) eqn:Hr; simpl; [reflexivity|].
    apply Qltb_ge in Hr. exfalso. apply Hbad. split; assumption.
  - apply Qle_bool_gt in Hpos. rewrite Hpos. simpl.
    apply Qltb_ge in Hnn. rewrite Hnn. simpl. exact IH.
Qed.

(** X6. When [validate_quantities] fails, the error is about the first row
    that is not acceptable: its quantity if that is not positive, else its
    rate; rows after it are not reported. *)
Theorem validate_quantities_reports_first_row :
  forall w good bad rest,
    items (doc w) = good ++ bad :: rest ->
    Forall quantity_ok good ->
    ~ quantity_ok bad ->
    validate_quantities w
    = (Raise (mkExc ValidationError (quantity_error bad)), w)
    /\ (flt (Item.qty bad) <= 0 ->
        quantity_error bad
        = ("Quantity must be greater than 0 for item "
             ++ Item.item_code bad)%string)
    /\ (0 < flt (Item.qty bad) ->
        quantity_error bad
        = ("Rate cannot be negative for item " ++ Item.item_code bad)%string).
Proof.
  intros w good bad rest Hitems Hgood Hbad. split; [|split].
  - change (validate_quantities w)
      with (validate_quantities_loop (items (doc w)) w).
    exact (validate_quantities_loop_first _ _ _ _ w Hitems Hgood Hbad).
  - intros Hq. unfold quantity_error. apply Qle_bool_iff in Hq.
    now rewrite Hq.
  - intros Hq. unfold quantity_error. apply Qle_bool_gt in Hq.
    now rewrite Hq.
Qed.

(** X6 at work: the second row has a negative rate, the third a quantity of
    zero; the rate of the second is what is reported. *)
Lemma validate_quantities_reports_first_row_example :
  validate_quantities (mkWorld negative_rate_doc [])
  = (Raise (mkExc ValidationError
                  (quantity_error
                     (Item.mk "ITEM-B" (Some 1) (Some (-5)) None None None))),
     mkWorld negative_rate_doc [])
  /\ (flt (Some 1) <= 0 ->
      quantity_error (Item.mk "ITEM-B" (Some 1) (Some (-5)) None None None)
      = ("Quantity must be greater than 0 for item " ++ "ITEM-B")%string)
  /\ (0 < flt (Some 1) ->
      quantity_error (Item.mk "ITEM-B" (Some 1) (Some (-5)) None None None)
      = ("Rate cannot be negative for item " ++ "ITEM-B")%string).
Proof.
  apply (validate_quantities_reports_first_row
           (mkWorld negative_rate_doc [])
           [Item.mk "ITEM-A" (Some 2) (Some 100) None None None]
           (Item.mk "ITEM-B" (Some 1) (Some (-5)) None None None)
           [Item.mk "ITEM-C" (Some 0) (Some 1) None None None]).
  - reflexivity.
  - repeat constructor; simpl; discriminate.
  - intros [_ Hnn]. simpl in Hnn. apply Hnn. reflexivity.
Defined.

Lemma validate_against_stock_loop_ok_iff E its w :
  validate_against_stock_loop E its w = (Ok tt, w)
  <-> Forall (stock_ok E) its.
Proof.
  induction its as [|it rest IH]; simpl; unfold_m.
  - split; [constructor|reflexivity].
  - destruct (Item.warehouse it) as [wh|] eqn:Hw;
      [destruct (Item.qty it) as [q|] eqn:Hq|]; simpl.
    + destruct (String.eqb_spec wh "") as [Hwe|Hwe]; simpl.
      { rewrite IH. split.
        - intros Hrest. constructor; [|exact Hrest].
          intros wh' q' Hw' Hne. rewrite Hw in Hw'.
          injection Hw' as <-. contradiction.
        - intros Hall. now inversion Hall. }
      destruct (Qeq_bool q 0) eqn:Hz; simpl.
      { apply Qeq_bool_iff in Hz. rewrite IH. split.
        - intros Hrest. constructor; [|exact Hrest].
          intros wh' q' _ _ Hq' Hnz. rewrite Hq in Hq'.
          injection Hq' as <-. contradiction.
        - intros Hall. now inversion Hall. }
      assert (~ q == 0) as Hnz.
      { intros Heq. apply Qeq_bool_iff in Heq. congruence. }
      destruct (get_stock_balance E (Item.item_code it) wh) as [a|e] eqn:Hb;
        simpl.
      * destruct (Qltb a q) eqn:Hlt; simpl.
        -- split; [intros [=]|]. intros Hall.
           inversion Hall as [|? ? Hok _].
           destruct (Hok wh q Hw Hwe Hq Hnz) as (a' & Ha' & Hle).
           rewrite Hb in Ha'. injection Ha' as <-.
           apply Qltb_lt in Hlt. exfalso. exact (Qlt_not_le _ _ Hlt Hle).
        -- apply Qltb_ge in Hlt. rewrite IH. split.
           ++ intros Hrest. constructor; [|exact Hrest].
              intros wh' q' Hw' _ Hq' _. rewrite Hw in Hw'. rewrite Hq in Hq'.
              injection Hw' as <-. injection Hq' as <-.
              exists a. split; assumption.
           ++ intros Hall. now inversion Hall.
      * split; [intros [=]|]. intros Hall. inversion Hall as [|? ? Hok _].
        destruct (Hok wh q Hw Hwe Hq Hnz) as (a' & Ha' & _).
        rewrite Hb in Ha'. discriminate.
    + rewrite IH. split.
      * intros Hrest. constructor; [|exact Hrest].
        intros wh' q' _ _ Hq' _. rewrite Hq in Hq'. discriminate.
      * intros Hall. now inversion Hall.
    + rewrite IH. split.
      * intros Hrest. constructor; [|exact Hrest].
        intros wh' q' Hw' _ _ _. rewrite Hw in Hw'. discriminate.
      * intros Hall. now inversion Hall.
Qed.

Lemma validate_against_stock_loop_skip E it rest w :
  stock_ok E it ->
  validate_against_stock_loop E (it :: rest) w
  = validate_against_stock_loop E rest w.
Proof.
  intros Hok.
  assert (validate_against_stock_loop E [it] w = (Ok tt, w)) as Hone.
  { apply validate_against_stock_loop_ok_iff. repeat constructor. exact Hok. }
  cbn [validate_against_stock_loop] in *. unfold bind in *.
  match goal with
  | |- context [match ?c w with _ => _ end] =>
      destruct (c w) as [[[]|e] w1]
  end.
  - unfold ret in Hone. injection Hone as ->. reflexivity.
  - discriminate.
Qed.

(** X7. [validate_against_stock] passes exactly when every row that names a
    warehouse and a quantity other than zero is covered by the balance the
    collaborator reports; a document whose rows name no warehouse, or no
    quantity, passes whatever the collaborator would say. Pass or fail, the
    document and the ledger are left as they were. *)
Theorem validate_against_stock_passes_iff :
  forall E w,
    (validate_against_stock E w = (Ok tt, w)
     <-> Forall (stock_ok E) (items (doc w)))
    /\ snd (validate_against_stock E w) = w
    /\ (Forall (fun it => truthy_str (Item.warehouse it) = false
                          \/ truthy_num (Item.qty it) = false)
               (items (doc w)) ->
        validate_against_stock E w = (Ok tt, w)).
Proof.
  intros E w.
  change (validate_against_stock E w)
    with (validate_against_stock_loop E (items (doc w)) w).
  split; [apply validate_against_stock_loop_ok_iff|].
  split; [apply validate_against_stock_loop_world|].
  intros Hskip. apply validate_against_stock_loop_ok_iff.
  eapply List.Forall_impl; [|exact Hskip].
  intros it Hit wh q Hw Hne Hq Hnz. exfalso.
  unfold truthy_str, truthy_num in Hit. rewrite Hw, Hq in Hit.
  destruct Hit as [Hit|Hit]; apply negb_false_iff in Hit.
  - apply String.eqb_eq in Hit. contradiction.
  - apply Qeq_bool_iff in Hit. contradiction.
Qed.

(** X8. An exception of the stock collaborator is not caught: when the first
    row that is not covered is one whose balance cannot be read,
    [validate_against_stock] raises the collaborator's own exception. *)
Theorem stock_exception_passes_through :
  forall E w good bad rest wh q e,
    items (doc w) = good ++ bad :: rest ->
    Forall (stock_ok E) good ->
    Item.warehouse bad = Some wh -> wh <> EmptyString ->
    Item.qty bad = Some q -> ~ q == 0 ->
    get_stock_balance E (Item.item_code bad) wh = Raise e ->
    validate_against_stock E w = (Raise e, w).
Proof.
  intros E w good bad rest wh q e Hitems Hgood Hw Hne Hq Hnz Hb.
  change (validate_against_stock E w)
    with (validate_against_stock_loop E (items (doc w)) w).
  rewrite Hitems. clear Hitems.
  induction Hgood as [|it good' Hok _ IH].
  - simpl. unfold_m. rewrite Hw, Hq, Hb.
    apply String.eqb_neq in Hne. rewrite Hne.
    destruct (Qeq_bool q 0) eqn:Hz;
      [apply Qeq_bool_iff in Hz; contradiction|].
    reflexivity.
  - simpl app. rewrite (validate_against_stock_loop_skip E it _ w Hok).
    exact IH.
Qed.

(** X8 at work: the stock collaborator is out of reach and the second row
    names a warehouse. *)
Lemma stock_exception_passes_through_example :
  validate_against_stock stock_down_env
    (mkWorld warehouse_on_second_row_doc [])
  = (Raise (mkExc ExternalDependencyError "Stock unavailable"),
     mkWorld warehouse_on_second_row_doc []).
Proof.
  apply (stock_exception_passes_through stock_down_env
           (mkWorld warehouse_on_second_row_doc [])
           [Item.mk "ITEM-A" (Some 2) (Some 100) None None None]
           (Item.mk "ITEM-B" (Some 1) (Some 50) None (Some "Stores"%string)
                    None)
           [] "Stores"%string 1
           (mkExc ExternalDependencyError "Stock unavailable")).
  - reflexivity.
  - constructor; [|constructor]. intros wh q Hw. simpl in Hw. discriminate.
  - reflexivity.
  - discriminate.
  - reflexivity.
  - discriminate.
  - reflexivity.
Defined.

(** ** [validate] as a whole *)

Lemma validate_required_fields_ok_iff w :
  validate_required_fields w = (Ok tt, w)
  <-> truthy_str (customer (doc w)) = true /\ items (doc w) <> [].
Proof.
  unfold validate_required_fields. unfold_m.
  destruct (truthy_str (customer (doc w))); simpl.
  - destruct (items (doc w)); simpl.
    + split; [intros [=]|intros [_ Hne]; contradiction].
    + split; [intros _; split; [reflexivity|discriminate]|reflexivity].
  - split; [intros [=]|intros [[=] _]].
Qed.

Lemma validate_dates_ok_iff E w :
  validate_dates E w = (Ok tt, w) <-> dates_ok E (doc w).
Proof.
  unfold validate_dates, dates_ok. unfold_m.
  destruct (from_date (doc w)) as [f|], (to_date (doc w)) as [t|],
           (due_date (doc w)) as [du|]; simpl;
    repeat match goal with
           | |- context [(?a <? ?b)%Z] =>
               destruct (Z.ltb_spec a b); simpl
           end;
    (split;
     [ intros Heq;
       first
         [ discriminate Heq
         | split;
           [ intros ? ? Hf Ht;
             first [ discriminate Hf | discriminate Ht
                   | injection Hf as <-; injection Ht as <-; lia ]
           | intros ? Hd;
             first [ discriminate Hd | injection Hd as <-; lia ] ] ]
     | intros [H1 H2];
       first
         [ reflexivity
         | exfalso; specialize (H1 _ _ eq_refl eq_refl); lia
         | exfalso; specialize (H2 _ eq_refl); lia ] ]).
Qed.

Lemma stock_ok_after_totals E d :
  Forall (stock_ok E) (items (calculate_totals d))
  <-> Forall (stock_ok E) (items d).
Proof.
  rewrite (calculate_totals_explicit d). cbn [items].
  rewrite List.Forall_map. reflexivity.
Qed.

Lemma quantity_ok_after_totals d :
  Forall quantity_ok (items (calculate_totals d))
  <-> Forall quantity_ok (items d).
Proof.
  rewrite (calculate_totals_explicit d). cbn [items].
  rewrite List.Forall_map. reflexivity.
Qed.

(** What it takes for [validate] to pass, and what it then leaves. *)
Lemma validate_ok_iff E w w' :
  validate E w = (Ok tt, w')
  <-> truthy_str (customer (doc w)) = true
      /\ items (doc w) <> []
      /\ dates_ok E (doc w)
      /\ Forall quantity_ok (items (doc w))
      /\ Forall (stock_ok E) (items (doc w))
      /\ w' = set_doc w (calculate_totals (doc w)).
Proof.
  unfold validate.
  split_check validate_required_fields w validate_required_fields_world E1.
  2:{ rewrite (bind_raise _ _ _ _ _ E1). split; [intros [=]|].
      intros (Hc & Hi & _).
      rewrite (proj2 (validate_required_fields_ok_iff w) (conj Hc Hi)) in E1.
      discriminate. }
  rewrite (bind_ok _ _ _ _ _ E1).
  apply validate_required_fields_ok_iff in E1. destruct E1 as [Hc Hi].
  split_check (validate_dates E) w (validate_dates_world E) E2.
  2:{ rewrite (bind_raise _ _ _ _ _ E2). split; [intros [=]|].
      intros (_ & _ & Hd & _).
      rewrite (proj2 (validate_dates_ok_iff E w) Hd) in E2. discriminate. }
  rewrite (bind_ok _ _ _ _ _ E2).
  apply validate_dates_ok_iff in E2.
  assert (forall w0, snd (validate_quantities w0) = w0) as Hq
      by (intros w0; apply validate_quantities_loop_world).
  split_check validate_quantities w Hq E3.
  2:{ rewrite (bind_raise _ _ _ _ _ E3). split; [intros [=]|].
      intros (_ & _ & _ & Hall & _).
      change (validate_quantities w)
        with (validate_quantities_loop (items (doc w)) w) in E3.
      rewrite (proj2 (validate_quantities_loop_ok_iff _ w) Hall) in E3.
      discriminate. }
  rewrite (bind_ok _ _ _ _ _ E3).
  change (validate_quantities w)
    with (validate_quantities_loop (items (doc w)) w) in E3.
  apply validate_quantities_loop_ok_iff in E3.
  rewrite (bind_ok (modify_doc calculate_totals) _ w tt
             (set_doc w (calculate_totals (doc w))) eq_refl).
  set (w1 := set_doc w (calculate_totals (doc w))).
  change (validate_against_stock E w1)
    with (validate_against_stock_loop E (items (calculate_totals (doc w))) w1).
  split.
  - intros Hs.
    pose proof (validate_against_stock_loop_world E
                  (items (calculate_totals (doc w))) w1) as Hw.
    rewrite Hs in Hw. simpl in Hw. subst w'.
    apply validate_against_stock_loop_ok_iff in Hs.
    apply (proj1 (stock_ok_after_totals E (doc w))) in Hs.
    split; [exact Hc|]. split; [exact Hi|]. split; [exact E2|].
    split; [exact E3|]. split; [exact Hs|]. reflexivity.
  - intros (_ & _ & _ & _ & Hs & ->).
    apply validate_against_stock_loop_ok_iff.
    apply (proj2 (stock_ok_after_totals E (doc w))). exact Hs.
Qed.

(** X9. [validate] passes exactly when the document has a customer and at
    least one row, its dates are in order, every row has a positive quantity
    and a rate that is not negative, and every row that names a warehouse is
    covered by the stock balance; what it then leaves is the document with
    its totals calculated, and the ledger as it was. *)
Theorem validate_passes_iff :
  forall E w,
    ((exists w', validate E w = (Ok tt, w'))
     <-> truthy_str (customer (doc w)) = true
         /\ items (doc w) <> []
         /\ dates_ok E (doc w)
         /\ Forall quantity_ok (items (doc w))
         /\ Forall (stock_ok E) (items (doc w)))
    /\ (forall w', validate E w = (Ok tt, w') ->
                   doc w' = calculate_totals (doc w)
                   /\ ledger w' = ledger w).
Proof.
  intros E w. split.
  - split.
    + intros [w' Hv]. apply validate_ok_iff in Hv.
      destruct Hv as (Hc & Hi & Hd & Hq & Hs & _).
      exact (conj Hc (conj Hi (conj Hd (conj Hq Hs)))).
    + intros (Hc & Hi & Hd & Hq & Hs).
      exists (set_doc w (calculate_totals (doc w))).
      apply validate_ok_iff.
      exact (conj Hc (conj Hi (conj Hd (conj Hq (conj Hs eq_refl))))).
  - intros w' Hv. apply validate_ok_iff in Hv.
    destruct Hv as (_ & _ & _ & _ & _ & ->). split; reflexivity.
Qed.

(** X10. When [validate] fails, the document is either untouched, the
    error coming from the required-field, date or quantity check, or it
    holds its calculated totals, the error coming from the stock check. *)
Theorem validate_failure_state :
  forall E w e w',
    validate E w = (Raise e, w') ->
    (w' = w
     /\ (validate_required_fields w = (Raise e, w)
         \/ validate_dates E w = (Raise e, w)
         \/ validate_quantities w = (Raise e, w)))
    \/ (w' = set_doc w (calculate_totals (doc w))
        /\ validate_against_stock E w' = (Raise e, w')).
Proof.
  intros E w e w'. unfold validate.
  split_check validate_required_fields w validate_required_fields_world E1.
  2:{ rewrite (bind_raise _ _ _ _ _ E1). intros [= <- <-].
      left. split; [reflexivity|]. now left. }
  rewrite (bind_ok _ _ _ _ _ E1).
  split_check (validate_dates E) w (validate_dates_world E) E2.
  2:{ rewrite (bind_raise _ _ _ _ _ E2). intros [= <- <-].
      left. split; [reflexivity|]. right. now left. }
  rewrite (bind_ok _ _ _ _ _ E2).
  assert (forall w0, snd (validate_quantities w0) = w0) as Hq
      by (intros w0; apply validate_quantities_loop_world).
  split_check validate_quantities w Hq E3.
  2:{ rewrite (bind_raise _ _ _ _ _ E3). intros [= <- <-].
      left. split; [reflexivity|]. right. now right. }
  rewrite (bind_ok _ _ _ _ _ E3).
  rewrite (bind_ok (modify_doc calculate_totals) _ w tt
             (set_doc w (calculate_totals (doc w))) eq_refl).
  intros Hs. right.
  pose proof (validate_against_stock_loop_world E
                (items (calculate_totals (doc w)))
                (set_doc w (calculate_totals (doc w)))) as Hw.
  change (validate_against_stock_loop E _ _)
    with (validate_against_stock E (set_doc w (calculate_totals (doc w))))
    in Hw.
  rewrite Hs in Hw. simpl in Hw. subst w'. split; [reflexivity|exact Hs].
Qed.

(** X10 at work on the document that is short of stock. *)
Lemma validate_failure_state_example :
  (snd (validate ex_env short_stock_world) = short_stock_world
   /\ (validate_required_fields short_stock_world
       = (Raise (mkExc ValidationError
            "Insufficient stock for item ITEM-A. Available: 3, Required: 5"),
          short_stock_world)
       \/ validate_dates ex_env short_stock_world
          = (Raise (mkExc ValidationError
               "Insufficient stock for item ITEM-A. Available: 3, Required: 5"),
             short_stock_world)
       \/ validate_quantities short_stock_world
          = (Raise (mkExc ValidationError
               "Insufficient stock for item ITEM-A. Available: 3, Required: 5"),
             short_stock_world)))
  \/ (snd (validate ex_env short_stock_world)
      = set_doc short_stock_world (calculate_totals (doc short_stock_world))
      /\ validate_against_stock ex_env (snd (validate ex_env short_stock_world))
         = (Raise (mkExc ValidationError
              "Insufficient stock for item ITEM-A. Available: 3, Required: 5"),
            snd (validate ex_env short_stock_world))).
Proof.
  apply (validate_failure_state ex_env short_stock_world
           (mkExc ValidationError
              "Insufficient stock for item ITEM-A. Available: 3, Required: 5")
           (snd (validate ex_env short_stock_world))).
  vm_compute. reflexivity.
Defined.

(** X11. A document that has passed [validate] passes it again, and comes
    out as it went in: saving twice is saving once. *)
Theorem validate_twice :
  forall E w w1,
    validate E w = (Ok tt, w1) ->
    validate E w1 = (Ok tt, w1).
Proof.
  intros E w w1 Hv. apply validate_ok_iff in Hv.
  destruct Hv as (Hc & Hi & Hd & Hq & Hs & ->).
  apply validate_ok_iff. cbn [doc set_doc].
  pose proof (calculate_totals_explicit (doc w)) as Hx.
  split; [rewrite Hx; exact Hc|].
  split.
  { rewrite Hx. cbn [items]. intros Hnil. apply Hi.
    destruct (items (doc w)); [reflexivity|discriminate]. }
  split; [rewrite Hx; exact Hd|].
  split; [apply quantity_ok_after_totals; exact Hq|].
  split; [apply (proj2 (stock_ok_after_totals E (doc w))); exact Hs|].
  unfold set_doc. cbn [doc ledger].
  f_equal. symmetry.
  rewrite (calculate_totals_explicit (calculate_totals (doc w))).
  rewrite !Hx. cbn [name doctype customer from_date to_date due_date
    posting_date items taxes debit_account credit_account].
  rewrite !items_loop_reamount, !taxes_loop_restep.
  f_equal.
  - rewrite map_map. apply map_ext. intros it. reflexivity.
  - rewrite map_map. apply map_ext. intros tx. apply tax_step_twice.
Qed.

(** X11 at work on the document that is in stock. *)
Lemma validate_twice_example :
  validate ex_env validated_world = (Ok tt, validated_world).
Proof.
  apply (validate_twice ex_env (mkWorld in_stock_doc []) validated_world).
  vm_compute. reflexivity.
Defined.

(** ** Signs and the two ledgers *)







(** * Further properties of the API endpoints *)

(** ** [update_customer_credit_limit] and [get_customer_info] *)

(** X15. After [update_customer_credit_limit] on a customer that exists,
    [get_customer_info] answers with the new credit limit (zero when none
    was given) and the customer's other details as before; the answer for
    every other identifier is what it was. *)
Theorem credit_limit_round_trip :
  forall (db : gmap string Customer.t) customer credit_limit c,
    db !! customer = Some c ->
    fst (Api.update_customer_credit_limit db customer credit_limit) = true
    /\ get_customer_info
         (snd (Api.update_customer_credit_limit db customer credit_limit))
         customer
       = Ok [("name"%string, JStr (Customer.name c));
             ("customer_name"%string, json_str (Customer.customer_name c));
             ("customer_type"%string, json_str (Customer.customer_type c));
             ("credit_limit"%string, JNum (flt credit_limit));
             ("territory"%string, json_str (Customer.territory c));
             ("customer_group"%string, json_str (Customer.customer_group c))]
    /\ forall other,
         other <> customer ->
         get_customer_info
           (snd (Api.update_customer_credit_limit db customer credit_limit))
           other
         = get_customer_info db other.
Proof.
  intros db customer credit_limit c Hlook.
  split; [reflexivity|]. simpl. unfold Api.db_set_credit_limit. split.
  - unfold get_customer_info, db_exists, db_get_doc.
    rewrite lookup_alter_eq, Hlook.
    rewrite bool_decide_eq_true_2 by (eexists; reflexivity). reflexivity.
  - intros other Hne.
    unfold get_customer_info, db_exists, db_get_doc.
    rewrite lookup_alter_ne by (intros Heq; apply Hne; now symmetry).
    reflexivity.
Qed.

(** X15 at work on the table with one customer. *)
Lemma credit_limit_round_trip_example :
  fst (Api.update_customer_credit_limit example_customer_db "CUST-1" (Some 5))
  = true
  /\ get_customer_info
       (snd (Api.update_customer_credit_limit example_customer_db "CUST-1"
               (Some 5)))
       "CUST-1"
     = Ok [("name"%string, JStr "CUST-1");
           ("customer_name"%string, json_str (Some "Alpha"%string));
           ("customer_type"%string, json_str (Some "Company"%string));
           ("credit_limit"%string, JNum (flt (Some 5)));
           ("territory"%string, json_str None);
           ("customer_group"%string, json_str None)]
  /\ forall other,
       other <> "CUST-1"%string ->
       get_customer_info
         (snd (Api.update_customer_credit_limit example_customer_db "CUST-1"
                 (Some 5)))
         other
       = get_customer_info example_customer_db other.
Proof.
  apply (credit_limit_round_trip example_customer_db "CUST-1" (Some 5)
           (Customer.mk "CUST-1" (Some "Alpha"%string) (Some "Company"%string)
                        (Some 1000) None None)).
  vm_compute. reflexivity.
Defined.

(** X16. [update_customer_credit_limit] on an identifier that names no
    customer answers [True] all the same and creates nothing: the table is
    as it was, and [get_customer_info] still raises. *)
Theorem credit_limit_of_unknown_customer :
  forall (db : gmap string Customer.t) customer credit_limit,
    db !! customer = None ->
    Api.update_customer_credit_limit db customer credit_limit = (true, db)
    /\ get_customer_info
         (snd (Api.update_customer_credit_limit db customer credit_limit))
         customer
       = Raise (mkExc ValidationError
                      ("Customer " ++ customer ++ " not found")%string).
Proof.
  intros db customer credit_limit Hnone.
  assert (Api.db_set_credit_limit db customer (flt credit_limit) = db) as Hsame.
  { unfold Api.db_set_credit_limit. apply map_eq. intros k.
    destruct (decide (k = customer)) as [->|Hne].
    - rewrite lookup_alter_eq, Hnone. reflexivity.
    - rewrite lookup_alter_ne by (intros Heq; apply Hne; now symmetry).
      reflexivity. }
  unfold Api.update_customer_credit_limit. rewrite Hsame.
  split; [reflexivity|]. simpl.
  unfold get_customer_info, db_exists. rewrite Hnone.
  rewrite bool_decide_eq_false_2 by (intros [x [=]]). reflexivity.
Qed.

(** X16 at work. *)
Lemma credit_limit_of_unknown_customer_example :
  Api.update_customer_credit_limit example_customer_db "CUST-9" (Some 5)
  = (true, example_customer_db)
  /\ get_customer_info
       (snd (Api.update_customer_credit_limit example_customer_db "CUST-9"
               (Some 5)))
       "CUST-9"
     = Raise (mkExc ValidationError
                    ("Customer " ++ "CUST-9" ++ " not found")%string).
Proof.
  apply (credit_limit_of_unknown_customer example_customer_db "CUST-9"
           (Some 5)).
  vm_compute. reflexivity.
Defined.

(** ** [get_stock_balance] over all warehouses *)

(** X17. Without a warehouse (none, or the empty string) the endpoint
    answers, for an item that has no row in the stock ledger, with zero
    rather than with the NULL of the query, and does not ask the stock
    collaborator. *)
Theorem stock_balance_without_rows :
  forall E table item_code,
    Forall (fun r => sl_item_code r <> item_code) table ->
    Api.get_stock_balance E table item_code None = Ok 0
    /\ Api.get_stock_balance E table item_code (Some EmptyString) = Ok 0
    /\ Api.sql_sum_actual_qty table item_code = None.
Proof.
  intros E table item_code Hnone.
  assert (Api.sql_sum_actual_qty table item_code = None) as Hsum.
  { unfold Api.sql_sum_actual_qty.
    replace (List.filter _ table) with (@nil sl_dict); [reflexivity|].
    symmetry. induction Hnone as [|r rest Hr _ IH]; simpl; [reflexivity|].
    apply String.eqb_neq in Hr. rewrite Hr. exact IH. }
  unfold Api.get_stock_balance. simpl. rewrite Hsum.
  repeat split; reflexivity.
Qed.

(** X17 at work: the example ledger has no row for ITEM-Z. *)
Lemma stock_balance_without_rows_example :
  Api.get_stock_balance stock_down_env example_stock_table "ITEM-Z" None = Ok 0
  /\ Api.get_stock_balance stock_down_env example_stock_table "ITEM-Z"
       (Some EmptyString) = Ok 0
  /\ Api.sql_sum_actual_qty example_stock_table "ITEM-Z" = None.
Proof.
  apply (stock_balance_without_rows stock_down_env example_stock_table
           "ITEM-Z").
  repeat constructor; discriminate.
Defined.

(** ** [bulk_create_customers] *)

Section BulkProperties.

Variable S : Type.
Variable insert : Api.new_customer -> S -> result string * S.

(** The two lists only grow: a run from any two lists is the run from the
    empty ones, appended. *)
Lemma bulk_loop_acc data acc s :
  Api.bulk_loop S insert data acc s
  = (Api.mkBulk
       (Api.created acc
          ++ Api.created
               (fst (Api.bulk_loop S insert data (Api.mkBulk [] []) s)))
       (Api.errors acc
          ++ Api.errors
               (fst (Api.bulk_loop S insert data (Api.mkBulk [] []) s))),
     snd (Api.bulk_loop S insert data (Api.mkBulk [] []) s)).
Proof.
  revert acc s. induction data as [|cd rest IH]; intros acc s; simpl.
  - rewrite !app_nil_r. destruct acc; reflexivity.
  - destruct (insert (Api.customer_of_data cd) s) as [[nm|e] s'].
    + rewrite (IH (Api.mkBulk (Api.created acc ++ [nm]) (Api.errors acc))).
      rewrite (IH (Api.mkBulk [nm] [])). simpl.
      rewrite <- app_assoc. reflexivity.
    + rewrite (IH (Api.mkBulk (Api.created acc) (Api.errors acc ++ _))).
      rewrite (IH (Api.mkBulk [] [_])). simpl.
      rewrite <- app_assoc. reflexivity.
Qed.

Lemma bulk_loop_count data acc s :
  (length (Api.created (fst (Api.bulk_loop S insert data acc s)))
   + length (Api.errors (fst (Api.bulk_loop S insert data acc s))))%nat
  = (length (Api.created acc) + length (Api.errors acc) + length data)%nat.
Proof.
  revert acc s. induction data as [|cd rest IH]; intros acc s; simpl.
  - lia.
  - destruct (insert (Api.customer_of_data cd) s) as [[nm|e] s'];
      rewrite IH; simpl; rewrite length_app; simpl; lia.
Qed.

Lemma bulk_loop_errors_sublist data s :
  map Api.be_customer_name
      (Api.errors (fst (Api.bulk_loop S insert data (Api.mkBulk [] []) s)))
  `sublist_of` map (fun cd => Api.dict_get cd "customer_name") data.
Proof.
  revert s. induction data as [|cd rest IH]; intros s; simpl.
  - constructor.
  - destruct (insert (Api.customer_of_data cd) s) as [[nm|e] s'];
      rewrite bulk_loop_acc; simpl.
    + apply sublist_cons. apply IH.
    + apply sublist_skip. apply IH.
Qed.

End BulkProperties.

(** X19. [bulk_create_customers] accounts for every record: each one ends
    either among the created names or among the errors, so the two lists
    together are as long as the input; and the errors name the records that
    failed in the order of the input. *)
Theorem bulk_create_accounts_for_every_record :
  forall (S : Type) (insert : Api.new_customer -> S -> result string * S)
         customers_data s,
    (length (Api.created
               (fst (Api.bulk_create_customers S insert customers_data s)))
     + length (Api.errors
                 (fst (Api.bulk_create_customers S insert customers_data s))))
    %nat
    = length customers_data
    /\ map Api.be_customer_name
           (Api.errors
              (fst (Api.bulk_create_customers S insert customers_data s)))
       `sublist_of`
       map (fun cd => Api.dict_get cd "customer_name") customers_data.
Proof.
  intros S insert customers_data s. unfold Api.bulk_create_customers. split.
  - rewrite bulk_loop_count. simpl. lia.
  - apply bulk_loop_errors_sublist.
Qed.

(** X20. A record that fails does not stop the run: creating a list of
    records in one call gives what creating a first part and then the rest
    gives, the second call starting from the state the first one left. *)
Theorem bulk_create_in_two_calls :
  forall (S : Type) (insert : Api.new_customer -> S -> result string * S)
         first rest s,
    Api.bulk_create_customers S insert (first ++ rest) s
    = let '(r1, s1) := Api.bulk_create_customers S insert first s in
      let '(r2, s2) := Api.bulk_create_customers S insert rest s1 in
      (Api.mkBulk (Api.created r1 ++ Api.created r2)
                  (Api.errors r1 ++ Api.errors r2),
       s2).
Proof.
  intros S insert first rest s. unfold Api.bulk_create_customers.
  generalize (Api.mkBulk [] []) at 1 2 as acc. revert s.
  induction first as [|cd first' IH]; intros s acc; simpl.
  - rewrite bulk_loop_acc.
    destruct (Api.bulk_loop S insert rest (Api.mkBulk [] []) s) as [r2 s2].
    reflexivity.
  - destruct (insert (Api.customer_of_data cd) s) as [[nm|e] s']; apply IH.
Qed.

(** X21. When the persistence collaborator takes every customer, no error
    is listed and there is one created name for each record. *)
Theorem bulk_create_all_accepted :
  forall (S : Type) (insert : Api.new_customer -> S -> result string * S)
         customers_data s,
    (forall c s0, exists nm s1, insert c s0 = (Ok nm, s1)) ->
    Api.errors (fst (Api.bulk_create_customers S insert customers_data s)) = []
    /\ length (Api.created
                 (fst (Api.bulk_create_customers S insert customers_data s)))
       = length customers_data.
Proof.
  intros S insert customers_data s Hall.
  assert (Api.errors
            (fst (Api.bulk_create_customers S insert customers_data s)) = [])
    as Hnone.
  { unfold Api.bulk_create_customers. revert s.
    induction customers_data as [|cd rest IH]; intros s; simpl.
    - reflexivity.
    - destruct (Hall (Api.customer_of_data cd) s) as (nm & s1 & ->).
      rewrite bulk_loop_acc. simpl. apply IH. }
  split; [exact Hnone|].
  pose proof (bulk_loop_count S insert customers_data (Api.mkBulk [] []) s)
    as Hc.
  unfold Api.bulk_create_customers in *. rewrite Hnone in Hc.
  simpl in Hc. lia.
Qed.

(** X21 at work on the three example records. *)
Lemma bulk_create_all_accepted_example :
  Api.errors
    (fst (Api.bulk_create_customers nat accepting_insert example_customers
            0%nat))
  = []
  /\ length (Api.created
               (fst (Api.bulk_create_customers nat accepting_insert
                       example_customers 0%nat)))
     = length example_customers.
Proof.
  apply (bulk_create_all_accepted nat accepting_insert example_customers
           0%nat).
  intros c s0. eexists _, _. reflexivity.
Defined.
